(** * Zero-knowledge ASP attestation

    A shallow embedding of the attestation circuit
    ([circuits/attestation/attestation.circom]), of the components it
    instantiates, and of the collaborators it exchanges data with: the
    Merkle tree builder, the proof generator and the on-chain registry;
    and of the scripts that build the circuit and its keys: the trusted
    setup helper ([scripts/setup_zk.js]) and the npm scripts of
    [package.json], embedded as programs that call their environment.

    Signals are elements of the scalar field of the curve the circuit is
    compiled for (circom's default, bn128); a template is embedded as the
    record of its signals, the boolean check of its constraints, and the
    witness computation the compiled circuit performs. *)

From stdpp Require Import gmap strings.
From Stdlib Require Import ZArith Lia List Bool Zmod Zstar Zpow_facts Zdivisibility Ring.
Import ListNotations.
Local Open Scope Z_scope.

(* ===================================================================== *)
(** * Part I: definitions *)
(* ===================================================================== *)

(** ** The field of signals *)

(** The modulus of circom's default curve: the order of the scalar field
    of bn128.  [package.json] compiles the circuit without [--prime], and
    [setup_zk.js] uses a bn128 powers-of-tau file. *)
Definition bn128_r : Z :=
  21888242871839275222246405745257275088548364400416034343698204186575808495617.

Abbreviation F := (Zmod bn128_r).

Definition bit_to_F (b : bool) : F := if b then Zmod.one else Zmod.zero.

(** A Lucas certificate for one number: a base [pr_a] and the factorisation
    [pr_fs] of [pr_n - 1] into prime powers. *)
Record pratt := { pr_n : Z; pr_a : Z; pr_fs : list (Z * Z) }.

Definition factored (n : Z) (fs : list (Z * Z)) : bool :=
  (fold_right (fun qe acc => fst qe ^ snd qe * acc) 1 fs =? n - 1)
  && forallb (fun qe => 0 <=? snd qe) fs.

Definition lucas_ok (c : pratt) : bool :=
  let n := pr_n c in
  (2 <=? n)
  && (Zpow_mod (pr_a c) (n - 1) n =? 1)
  && factored n (pr_fs c)
  && forallb
       (fun qe => Z.gcd (Zpow_mod (pr_a c) ((n - 1) / fst qe) n - 1) n =? 1)
       (pr_fs c).

(** A chain of certificates: every prime factor used by an entry is either
    already [known] or certified by an earlier entry. *)
Fixpoint pratt_check (known : list Z) (cs : list pratt) : bool :=
  match cs with
  | [] => true
  | c :: cs' =>
      forallb (fun qe => existsb (Z.eqb (fst qe)) known) (pr_fs c)
      && lucas_ok c
      && pratt_check (pr_n c :: known) cs'
  end.

Definition bn128_certificate : list pratt :=
  [{| pr_n := 3; pr_a := 2; pr_fs := [(2, 1)] |};
   {| pr_n := 13; pr_a := 2; pr_fs := [(2, 2); (3, 1)] |};
   {| pr_n := 7; pr_a := 3; pr_fs := [(2, 1); (3, 1)] |};
   {| pr_n := 29; pr_a := 2; pr_fs := [(2, 2); (7, 1)] |};
   {| pr_n := 5; pr_a := 2; pr_fs := [(2, 2)] |};
   {| pr_n := 491; pr_a := 2; pr_fs := [(2, 1); (5, 1); (7, 2)] |};
   {| pr_n := 983; pr_a := 5; pr_fs := [(2, 1); (491, 1)] |};
   {| pr_n := 11; pr_a := 2; pr_fs := [(2, 1); (5, 1)] |};
   {| pr_n := 5501; pr_a := 2; pr_fs := [(2, 2); (5, 3); (11, 1)] |};
   {| pr_n := 11003; pr_a := 2; pr_fs := [(2, 1); (5501, 1)] |};
   {| pr_n := 449; pr_a := 3; pr_fs := [(2, 6); (7, 1)] |};
   {| pr_n := 237073; pr_a := 15; pr_fs := [(2, 4); (3, 1); (11, 1); (449, 1)] |};
   {| pr_n := 41; pr_a := 6; pr_fs := [(2, 3); (5, 1)] |};
   {| pr_n := 3691; pr_a := 2; pr_fs := [(2, 1); (3, 2); (5, 1); (41, 1)] |};
   {| pr_n := 17; pr_a := 3; pr_fs := [(2, 4)] |};
   {| pr_n := 4999; pr_a := 3; pr_fs := [(2, 1); (3, 1); (7, 2); (17, 1)] |};
   {| pr_n := 405928799; pr_a := 22;
      pr_fs := [(2, 1); (11, 1); (3691, 1); (4999, 1)] |};
   {| pr_n := 53; pr_a := 2; pr_fs := [(2, 2); (13, 1)] |};
   {| pr_n := 107; pr_a := 2; pr_fs := [(2, 1); (53, 1)] |};
   {| pr_n := 661; pr_a := 2; pr_fs := [(2, 2); (3, 1); (5, 1); (11, 1)] |};
   {| pr_n := 31; pr_a := 3; pr_fs := [(2, 1); (3, 1); (5, 1)] |};
   {| pr_n := 93001; pr_a := 14; pr_fs := [(2, 3); (3, 1); (5, 3); (31, 1)] |};
   {| pr_n := 12048837557; pr_a := 2;
      pr_fs := [(2, 2); (7, 2); (661, 1); (93001, 1)] |};
   {| pr_n := 5156902474397; pr_a := 2;
      pr_fs := [(2, 2); (107, 1); (12048837557, 1)] |};
   {| pr_n := 1670836401704629; pr_a := 2;
      pr_fs := [(2, 2); (3, 4); (5156902474397, 1)] |};
   {| pr_n := 137; pr_a := 3; pr_fs := [(2, 3); (17, 1)] |};
   {| pr_n := 823; pr_a := 3; pr_fs := [(2, 1); (3, 1); (137, 1)] |};
   {| pr_n := 19; pr_a := 2; pr_fs := [(2, 1); (3, 2)] |};
   {| pr_n := 23; pr_a := 5; pr_fs := [(2, 1); (11, 1)] |};
   {| pr_n := 47; pr_a := 5; pr_fs := [(2, 1); (23, 1)] |};
   {| pr_n := 37; pr_a := 2; pr_fs := [(2, 2); (3, 2)] |};
   {| pr_n := 223; pr_a := 3; pr_fs := [(2, 1); (3, 1); (37, 1)] |};
   {| pr_n := 20963; pr_a := 2; pr_fs := [(2, 1); (47, 1); (223, 1)] |};
   {| pr_n := 41927; pr_a := 5; pr_fs := [(2, 1); (20963, 1)] |};
   {| pr_n := 1593227; pr_a := 2; pr_fs := [(2, 1); (19, 1); (41927, 1)] |};
   {| pr_n := 83; pr_a := 2; pr_fs := [(2, 1); (41, 1)] |};
   {| pr_n := 379; pr_a := 2; pr_fs := [(2, 1); (3, 3); (7, 1)] |};
   {| pr_n := 409; pr_a := 21; pr_fs := [(2, 3); (3, 1); (17, 1)] |};
   {| pr_n := 1637; pr_a := 2; pr_fs := [(2, 2); (409, 1)] |};
   {| pr_n := 229; pr_a := 6; pr_fs := [(2, 2); (3, 1); (19, 1)] |};
   {| pr_n := 71; pr_a := 7; pr_fs := [(2, 1); (5, 1); (7, 1)] |};
   {| pr_n := 853; pr_a := 2; pr_fs := [(2, 2); (3, 1); (71, 1)] |};
   {| pr_n := 639533339; pr_a := 2;
      pr_fs := [(2, 1); (229, 1); (853, 1); (1637, 1)] |};
   {| pr_n := 65865678001877903; pr_a := 5;
      pr_fs := [(2, 1); (83, 1); (379, 1); (1637, 1); (639533339, 1)] |};
   {| pr_n := 13818364434197438864469338081; pr_a := 3;
      pr_fs := [(2, 5); (5, 1); (823, 1); (1593227, 1);
                (65865678001877903, 1)] |};
   {| pr_n := bn128_r; pr_a := 5;
      pr_fs := [(2, 28); (3, 2); (13, 1); (29, 1); (983, 1); (11003, 1);
                (237073, 1); (405928799, 1); (1670836401704629, 1);
                (13818364434197438864469338081, 1)] |}].

(** ** Results of fallible operations *)

Inductive result (E A : Type) : Type :=
| Ok (a : A)
| Err (e : E).
Arguments Ok {E A} a.
Arguments Err {E A} e.

(** ** The combination rule shared by the circuit and the tree builder *)

Section Climb.
Context {A : Type} (H : A -> A -> A).

(** One step up the tree: the running value [cur] is the left child when
    the direction bit is 0 and the right child when it is 1. *)
Definition combine (cur sib : A) (right : bool) : A :=
  if right then H sib cur else H cur sib.

Fixpoint climb (cur : A) (sibs : list A) (bits : list bool) : A :=
  match sibs, bits with
  | e :: sibs', b :: bits' => climb (combine cur e b) sibs' bits'
  | _, _ => cur
  end.
End Climb.

(** ** Components of circomlib's [comparators.circom] *)

Module IsZero.
(** Modelled from the spec: the signals of the zero test inside the
    equality-test gadget (template [IsZero] of circomlib's
    [comparators.circom], which [attestation.circom] includes from
    [node_modules] and which is not part of the sources):
    [signal input in; signal output out; signal inv;] *)
Record signals := { in_ : F; out : F; inv : F }.

(** Modelled from the spec: the constraints of the zero test, whose output
    is the boolean [in == 0]:
    [out <== -in*inv +1;  in*out === 0;] *)
Definition constraints (c : signals) : bool :=
  Zmod.eqb (out c) (- in_ c * inv c + 1)%Zmod
  && Zmod.eqb (in_ c * out c)%Zmod Zmod.zero.

(** Modelled from the spec: the witness computation of the zero test:
    [inv <-- in!=0 ? 1/in : 0;  out <== -in*inv +1;] *)
Definition witness (x : F) : signals :=
  let i := if Zmod.eqb x Zmod.zero then Zmod.zero else Zmod.mdiv Zmod.one x in
  {| in_ := x; inv := i; out := (- x * i + 1)%Zmod |}.
End IsZero.

Module IsEqual.
(** Modelled from the spec: the signals of the equality-test gadget
    (template [IsEqual] of circomlib's [comparators.circom], not part of
    the sources):
    [signal input in[2]; signal output out; component isz = IsZero();] *)
Record signals := { in0 : F; in1 : F; out : F; isz : IsZero.signals }.

(** Modelled from the spec: the constraints of the equality-test gadget,
    which outputs 1 if its two inputs are equal and 0 otherwise:
    [in[1] - in[0] ==> isz.in;  isz.out ==> out;] *)
Definition constraints (c : signals) : bool :=
  Zmod.eqb (IsZero.in_ (isz c)) (in1 c - in0 c)%Zmod
  && IsZero.constraints (isz c)
  && Zmod.eqb (out c) (IsZero.out (isz c)).

(** Modelled from the spec: the witness computation of the gadget. *)
Definition witness (a b : F) : signals :=
  let z := IsZero.witness (b - a)%Zmod in
  {| in0 := a; in1 := b; isz := z; out := IsZero.out z |}.
End IsEqual.

(** ** The Merkle proof component *)

Module MerkleProof.
(** Modelled from the spec: the signals of one level of the template
    [MerkleProof], which [attestation.circom] includes from
    [circomlib/circuits/merkleTree.circom] and which is not part of the
    sources: the direction bit [s], the two children [left] and [right]
    in the order the bit dictates, and their compression [hash]. *)
Record level := { s : F; left : F; right : F; hash : F }.

(** Modelled from the spec: the signals of [MerkleProof(levels)]: inputs
    [leaf], [pathElements[levels]], [pathIndices[levels]], output [root],
    and one [level] per tree level. *)
Record signals := {
  leaf : F;
  pathElements : list F;
  pathIndices : list F;
  selectors : list level;
  root : F
}.

Section WithHash.
(** The two-to-one compression function is a parameter: the same function
    inside the circuit and outside it, whichever it is. *)
Variable H : F -> F -> F.

(** Modelled from the spec: the constraints of one level of [MerkleProof]:
    the index is constrained to be a single bit, the running value [cur] is
    the left child when the bit is 0 and the right child when it is 1, and
    the two children are compressed by [H]. *)
Definition level_constraints (cur e idx : F) (l : level) : bool :=
  Zmod.eqb (s l) idx
  && Zmod.eqb (s l * (1 - s l))%Zmod Zmod.zero
  && Zmod.eqb (left l) ((e - cur) * s l + cur)%Zmod
  && Zmod.eqb (right l) ((cur - e) * s l + e)%Zmod
  && Zmod.eqb (hash l) (H (left l) (right l)).

(** Modelled from the spec: the levels of [MerkleProof] are chained, each
    one combining the hash of the level below (the leaf at level 0) with
    the path element of its level. *)
Fixpoint chain_constraints (cur : F) (pe pi : list F) (ls : list level) : bool :=
  match pe, pi, ls with
  | [], [], [] => true
  | e :: pe', i :: pi', l :: ls' =>
      level_constraints cur e i l && chain_constraints (hash l) pe' pi' ls'
  | _, _, _ => false
  end.

(** Modelled from the spec: the arrays of [MerkleProof(levels)] have
    [levels] entries each. *)
Definition shape (levels : nat) (m : signals) : bool :=
  Nat.eqb (length (pathElements m)) levels
  && Nat.eqb (length (pathIndices m)) levels
  && Nat.eqb (length (selectors m)) levels.

(** Modelled from the spec: the constraints of [MerkleProof(levels)]; the
    output [root] is the hash of the topmost level. *)
Definition constraints (levels : nat) (m : signals) : bool :=
  shape levels m
  && chain_constraints (leaf m) (pathElements m) (pathIndices m) (selectors m)
  && Zmod.eqb (root m) (last (map hash (selectors m)) (leaf m)).

(** Modelled from the spec: the witness computation of one level. *)
Definition level_witness (cur e idx : F) : level :=
  let l := ((e - cur) * idx + cur)%Zmod in
  let r := ((cur - e) * idx + e)%Zmod in
  {| s := idx; left := l; right := r; hash := H l r |}.

(** Modelled from the spec: the witness computation of the chained levels. *)
Fixpoint chain_witness (cur : F) (pe pi : list F) : list level :=
  match pe, pi with
  | e :: pe', i :: pi' =>
      let l := level_witness cur e i in l :: chain_witness (hash l) pe' pi'
  | _, _ => []
  end.

(** Modelled from the spec: the witness computation of [MerkleProof]. *)
Definition witness (x : F) (pe pi : list F) : signals :=
  let ls := chain_witness x pe pi in
  {| leaf := x; pathElements := pe; pathIndices := pi; selectors := ls;
     root := last (map hash ls) x |}.
End WithHash.
End MerkleProof.

(** ** The attestation circuit ([attestation.circom]) *)

Module Attestation.
(** [signal input root; signal input knownBadLeafHash;] *)
Record public_inputs := { root : F; knownBadLeafHash : F }.

(** [signal input leaf; signal input pathElements[levels];
     signal input pathIndices[levels];] *)
Record private_inputs := {
  leaf : F;
  pathElements : list F;
  pathIndices : list F
}.

(** All signals of an instance of [template Attestation (levels)]: its
    inputs and its two components. *)
Record signals := {
  public : public_inputs;
  private : private_inputs;
  merkleProof : MerkleProof.signals;
  isNotBad : IsEqual.signals
}.

(** The input arrays have [levels] entries each. *)
Definition shape (levels : nat) (x : private_inputs) : bool :=
  Nat.eqb (length (pathElements x)) levels
  && Nat.eqb (length (pathIndices x)) levels.

Section WithHash.
Variable H : F -> F -> F.

(** [// 1. Verify the Merkle Proof] (lines 56-68):
<<
    component merkleProof = MerkleProof(levels);
    merkleProof.leaf <== leaf;
    for (var i = 0; i < levels; i++) {
        merkleProof.pathElements[i] <== pathElements[i];
        merkleProof.pathIndices[i] <== pathIndices[i];
    }
    merkleProof.root === root;
>> *)
Definition inclusion (levels : nat) (a : signals) : bool :=
  MerkleProof.constraints H levels (merkleProof a)
  && Zmod.eqb (MerkleProof.leaf (merkleProof a)) (leaf (private a))
  && forallb
       (fun i =>
          Zmod.eqb (nth i (MerkleProof.pathElements (merkleProof a)) Zmod.zero)
                   (nth i (pathElements (private a)) Zmod.zero)
          && Zmod.eqb (nth i (MerkleProof.pathIndices (merkleProof a)) Zmod.zero)
                      (nth i (pathIndices (private a)) Zmod.zero))
       (seq 0 levels)
  && Zmod.eqb (MerkleProof.root (merkleProof a)) (root (public a)).

(** [// 2. Verify the 'safe' leaf is not the specific 'knownBadLeafHash']
    (lines 70-79):
<<
    component isNotBad = IsEqual();
    isNotBad.in[0] <== leaf;
    isNotBad.in[1] <== knownBadLeafHash;
    isNotBad.out === 0;
>> *)
Definition inequality (a : signals) : bool :=
  IsEqual.constraints (isNotBad a)
  && Zmod.eqb (IsEqual.in0 (isNotBad a)) (leaf (private a))
  && Zmod.eqb (IsEqual.in1 (isNotBad a)) (knownBadLeafHash (public a))
  && Zmod.eqb (IsEqual.out (isNotBad a)) Zmod.zero.

(** The constraint system of [Attestation(levels)]. *)
Definition constraints (levels : nat) (a : signals) : bool :=
  shape levels (private a) && inclusion levels a && inequality a.

(** An assignment of the inputs satisfies a set of constraints when it
    extends to an assignment of all signals on which the check holds. *)
Definition extends (pub : public_inputs) (priv : private_inputs) (a : signals) : Prop :=
  public a = pub /\ private a = priv.

Definition inclusion_satisfied (levels : nat) (pub : public_inputs)
    (priv : private_inputs) : Prop :=
  exists a, extends pub priv a /\ shape levels priv = true
            /\ inclusion levels a = true.

Definition inequality_satisfied (pub : public_inputs) (priv : private_inputs) : Prop :=
  exists a, extends pub priv a /\ inequality a = true.

Definition satisfiable (levels : nat) (pub : public_inputs)
    (priv : private_inputs) : Prop :=
  exists a, extends pub priv a /\ constraints levels a = true.

(** The witness computation of the compiled circuit: every intermediate
    signal is computed from the inputs by the [<==] and [<--] assignments
    of the templates. *)
Definition assign (pub : public_inputs) (priv : private_inputs) : signals :=
  {| public := pub; private := priv;
     merkleProof :=
       MerkleProof.witness H (leaf priv) (pathElements priv) (pathIndices priv);
     isNotBad := IsEqual.witness (leaf priv) (knownBadLeafHash pub) |}.

(** The computation aborts when a [===] constraint fails on the computed
    signals. *)
Definition witness (levels : nat) (pub : public_inputs) (priv : private_inputs)
    : option signals :=
  let a := assign pub priv in
  if constraints levels a then Some a else None.

(** The specification of the inclusion constraints, in the spec's words,
    to compare [inclusion] with: an index names the side of the running
    value, 0 = left child and 1 = right child; another value names no
    side. *)
Definition side (idx : F) : option bool :=
  if Zmod.eqb idx Zmod.zero then Some false
  else if Zmod.eqb idx Zmod.one then Some true
  else None.

(** The specification of the inclusion constraints, continued: starting
    from [leaf], iteratively combine the running value with each
    [pathElements[k]] on the side [pathIndices[k]] names; the result is the
    value that must equal [root]. *)
Fixpoint path_root (cur : F) (pe pi : list F) : option F :=
  match pe, pi with
  | e :: pe', i :: pi' =>
      match side i with
      | Some b => path_root (combine H cur e b) pe' pi'
      | None => None
      end
  | _, _ => Some cur
  end.
End WithHash.

(** [component main {public [root, knownBadLeafHash]} = Attestation(4);] *)
Definition levels : nat := 4.
Definition main (H : F -> F -> F) : signals -> bool := constraints H levels.

(** The declarations of the template, as the compiler sees them: every
    input signal in declaration order with the number of its entries, and
    the list of signals the [main] component makes public. *)
Record signal_decl := { sig_name : string; sig_size : nat }.

Definition input_signals (levels : nat) : list signal_decl :=
  [ {| sig_name := "root"; sig_size := 1 |};
    {| sig_name := "knownBadLeafHash"; sig_size := 1 |};
    {| sig_name := "leaf"; sig_size := 1 |};
    {| sig_name := "pathElements"; sig_size := levels |};
    {| sig_name := "pathIndices"; sig_size := levels |} ].

Definition main_public : list string := ["root"; "knownBadLeafHash"].

Definition is_public (d : signal_decl) : bool :=
  existsb (String.eqb (sig_name d)) main_public.

(** Public signals keep their declaration order. *)
Definition public_signals : list signal_decl :=
  List.filter is_public (input_signals levels).

Definition private_signals : list signal_decl :=
  List.filter (fun d => negb (is_public d)) (input_signals levels).

(** The values bound to the public signals, in that order. *)
Definition public_values (pub : public_inputs) : list F :=
  [root pub; knownBadLeafHash pub].

Definition capacity : nat := 2 ^ levels.

(** The same assignment with another value on [knownBadLeafHash]. *)
Definition with_knownBadLeafHash (B : F) (a : signals) : signals :=
  {| public := {| root := root (public a); knownBadLeafHash := B |};
     private := private a;
     merkleProof := merkleProof a;
     isNotBad := isNotBad a |}.
End Attestation.

(** ** The Merkle tree builder *)

Module MerkleTreeBuilder.
(** Modelled from the spec: [InvalidIndex], a tree query out of range
    (section 7). *)
Inductive error := InvalidIndex.

(** Modelled from the spec: a path is an ordered sequence of [L] sibling
    hashes and [L] left/right direction bits (section 3, Path). *)
Record Path (A : Type) := {
  pathElements : list A;
  pathIndices : list bool
}.
Arguments pathElements {A} _.
Arguments pathIndices {A} _.

(** Modelled from the spec: the tree keeps every level, the padded leaves
    first and the root last, and the current leaf count that bounds the
    indices [pathFor] accepts (sections 3 and 4.1). *)
Record MerkleTree (A : Type) := {
  leaf_count : nat;
  nodes : list (list A)
}.
Arguments leaf_count {A} _.
Arguments nodes {A} _.

Section WithHash.
Context {A : Type} (H : A -> A -> A) (zero_leaf : A).

(** Modelled from the spec: fixed depth [L = 4], capacity [2^L = 16]. *)
Definition L : nat := 4.

(** Modelled from the spec: shorter sequences are padded on the right with
    the canonical zero-leaf up to the capacity. *)
Definition pad (leaves : list A) : list A :=
  leaves ++ repeat zero_leaf (2 ^ L - length leaves).

(** Modelled from the spec: one level up, hashing adjacent pairs with the
    two-to-one compression function. *)
Fixpoint pair_up (l : list A) : list A :=
  match l with
  | a :: b :: rest => H a b :: pair_up rest
  | _ => []
  end.

(** Modelled from the spec: the levels of a tree of depth [n] over the
    bottom level [l]. *)
Fixpoint levels_from (n : nat) (l : list A) : list (list A) :=
  match n with
  | O => [l]
  | S n' => l :: levels_from n' (pair_up l)
  end.

(** Modelled from the spec: the root is the single node of the last level. *)
Definition tree_root (t : MerkleTree A) : A :=
  hd zero_leaf (last (nodes t) []).

(** Modelled from the spec: [build(leaves) -> (root, tree)]. *)
Definition build (leaves : list A) : A * MerkleTree A :=
  let t := {| leaf_count := length leaves;
              nodes := levels_from L (pad leaves) |} in
  (tree_root t, t).

(** Modelled from the spec: the sibling of node [i] within its level. *)
Definition sibling (i : nat) : nat :=
  if Nat.odd i then (i - 1)%nat else (i + 1)%nat.

(** Modelled from the spec: the sibling hashes and the direction bits of
    the node at index [i] of the first of the levels [lvls], bottom up; the
    bits are the binary representation of [i], least significant first. *)
Fixpoint path_from (lvls : list (list A)) (i : nat) : list A * list bool :=
  match lvls with
  | l :: ((_ :: _) as rest) =>
      let (es, bs) := path_from rest (Nat.div2 i) in
      (nth (sibling i) l zero_leaf :: es, Nat.odd i :: bs)
  | _ => ([], [])
  end.

(** Modelled from the spec: [pathFor(tree, index) -> Path]; an index out
    of the current leaf count fails with [InvalidIndex]. *)
Definition pathFor (t : MerkleTree A) (index : nat) : result error (Path A) :=
  if (index <? leaf_count t)%nat then
    let (es, bs) := path_from (nodes t) index in
    Ok {| pathElements := es; pathIndices := bs |}
  else Err InvalidIndex.

(** Modelled from the spec: manual root recomputation from a leaf and a
    path, with the circuit's combination rule. *)
Definition recompute (x : A) (p : Path A) : A :=
  climb H x (pathElements p) (pathIndices p).

(** Collision-freeness of the compression function, in its idealised
    form: distinct pairs of children have distinct hashes. *)
Definition collision_free : Prop :=
  forall a b c d, H a b = H c d -> a = c /\ b = d.
End WithHash.
End MerkleTreeBuilder.

(** Modelled from the spec: the data flow of section 2: the leaf and the
    path the builder returns become the private inputs of the circuit, a
    direction bit becoming the field element 0 or 1. *)
Definition private_of_path (x : F) (p : MerkleTreeBuilder.Path F)
    : Attestation.private_inputs :=
  {| Attestation.leaf := x;
     Attestation.pathElements := MerkleTreeBuilder.pathElements p;
     Attestation.pathIndices := map bit_to_F (MerkleTreeBuilder.pathIndices p) |}.

(** ** The proof generator *)

Module ProofGenerator.
(** Modelled from the spec: [UnsatisfiableWitness], the private inputs do
    not satisfy the constraints of the circuit (section 7). *)
Inductive error := UnsatisfiableWitness.

Section WithProver.
(** The proving system is a parameter: a proving key and the routine that
    turns a full assignment into a succinct proof. *)
Context {ProvingKey Proof : Type}.
Variable prove : ProvingKey -> Attestation.signals -> Proof.
Variable H : F -> F -> F.

(** Modelled from the spec: [generate(provingKey, publicInputs,
    privateInputs) -> Proof | Error] computes a full assignment satisfying
    every constraint of the circuit; when there is none it fails with
    [UnsatisfiableWitness]; on success it returns the proof and the ordered
    list of public signals [(root, knownBadLeafHash)] (section 4.3). *)
Definition generate (pk : ProvingKey) (pub : Attestation.public_inputs)
    (priv : Attestation.private_inputs) : result error (Proof * list F) :=
  match Attestation.witness H Attestation.levels pub priv with
  | Some w => Ok (prove pk w, Attestation.public_values pub)
  | None => Err UnsatisfiableWitness
  end.
End WithProver.
End ProofGenerator.

(** ** The attestation registry *)

Module Registry.
(** Modelled from the spec: the identity of a submitter. *)
Definition address := Z.

(** Modelled from the spec: the failures at the registry boundary
    (section 7). *)
Inductive error :=
| VerificationRejected
| UnauthorizedSubmitter
| MalformedProof.

Section WithVerifier.
(** The verification procedure is a parameter: the encoding of a proof, the
    check of that encoding, and the fixed procedure that validates a proof
    and its public signals against the verification key. *)
Context {ProofComponents VerificationKey : Type}.
Variable well_formed : ProofComponents -> bool.
Variable verify : VerificationKey -> ProofComponents -> list F -> bool.

(** Modelled from the spec: section 3, Attestation:
    [{root, proof, publicSignals, submitter, timestamp, valid}]. *)
Record Attestation := {
  root : F;
  proof : ProofComponents;
  publicSignals : list F;
  submitter : address;
  timestamp : Z;
  valid : bool
}.

(** Modelled from the spec: the states of a registered key; a key that is
    not in the registry is [Unregistered] (section 4.4). *)
Inductive SubmitterState :=
| Registered
| Attested (a : Attestation).

(** Modelled from the spec: the registry: its admin, the fixed verification
    key, and one slot per submitter. *)
Record state := {
  admin : address;
  vk : VerificationKey;
  slots : gmap address SubmitterState
}.

(** Modelled from the spec: a write to the slots; the admin and the
    verification key never change. *)
Definition set_slots (st : state) (m : gmap address SubmitterState) : state :=
  {| admin := admin st; vk := vk st; slots := m |}.

(** Modelled from the spec: the registry as deployed, with no submitter. *)
Definition initial (a : address) (k : VerificationKey) : state :=
  {| admin := a; vk := k; slots := ∅ |}.

(** Modelled from the spec: [registerSubmitter(id)]: admin-gated; moves
    [Unregistered] to [Registered]; a no-op if already registered.  A call
    by anyone else is rejected ([None]). *)
Definition registerSubmitter (caller id : address) (st : state) : option state :=
  if Z.eqb caller (admin st) then
    match slots st !! id with
    | None => Some (set_slots st (<[id := Registered]> (slots st)))
    | Some _ => Some st
    end
  else None.

(** Modelled from the spec: [submitAttestation(proof, publicSignals)]:
    requires that the caller is registered, rejects a malformed encoding,
    public signals that do not have the shape [(root, knownBadLeafHash)]
    and a proof the verification procedure does not accept; on success
    stores [{root = publicSignals.root, timestamp = now, submitter = caller,
    valid = true}] in the caller's slot, replacing any prior entry. *)
Definition submitAttestation (caller : address) (now : Z)
    (prf : ProofComponents) (signals : list F) (st : state)
    : result error state :=
  match slots st !! caller with
  | None => Err UnauthorizedSubmitter
  | Some _ =>
      if negb (well_formed prf) then Err MalformedProof
      else
        match signals with
        | [r; _] =>
            if verify (vk st) prf signals then
              Ok (set_slots st
                    (<[caller := Attested {| root := r; proof := prf;
                                             publicSignals := signals;
                                             submitter := caller;
                                             timestamp := now;
                                             valid := true |}]> (slots st)))
            else Err VerificationRejected
        | _ => Err VerificationRejected
        end
  end.






(** Modelled from the spec: [getLatestValidAttestation(id)]: a pure read;
    [None] is [NotFound]. *)
Definition getLatestValidAttestation (id : address) (st : state)
    : option Attestation :=
  match slots st !! id with
  | Some (Attested a) => Some a
  | _ => None
  end.

(** Modelled from the spec: the state-changing entry points of the
    registry. *)
Inductive call :=
| RegisterSubmitter (id : address)
| SubmitAttestation (prf : ProofComponents) (signals : list F).

(** Modelled from the spec: a transaction: a call with its caller and the
    time of the ledger. *)
Record transaction := { caller : address; now : Z; payload : call }.

(** Modelled from the spec: a call returns [success] or reverts
    (section 6). *)
Inductive outcome :=
| Success
| Revert (e : option error).

(** Modelled from the spec: the ledger's transaction semantics: a call
    either commits or reverts entirely (section 5). *)
Definition execute (t : transaction) (st : state) : state * outcome :=
  match payload t with
  | RegisterSubmitter id =>
      match registerSubmitter (caller t) id st with
      | Some st' => (st', Success)
      | None => (st, Revert None)
      end
  | SubmitAttestation prf signals =>
      match submitAttestation (caller t) (now t) prf signals st with
      | Ok st' => (st', Success)
      | Err e => (st, Revert (Some e))
      end
  end.

(** Modelled from the spec: transactions are applied in the order the
    ledger finalises them. *)
Definition run (ts : list transaction) (st : state) : state :=
  fold_left (fun s t => fst (execute t s)) ts st.

(** The states the registry can be in: those some sequence of transactions
    leads to from a freshly deployed registry. *)
Definition reachable (st : state) : Prop :=
  exists a k ts, st = run ts (initial a k).

(** Every attestation stored anywhere in the registry. *)
Definition stored (st : state) : list Attestation :=
  omap (fun kv => match snd kv with Attested a => Some a | Registered => None end)
       (map_to_list (slots st)).

(** The attestations stored for a submitter. *)
Definition attestations_of (id : address) (st : state) : list Attestation :=
  base.filter (fun a => submitter a = id) (stored st).

(** Every stored attestation sits in the slot of its own submitter. *)
Definition slot_owner (m : gmap address SubmitterState) : Prop :=
  forall k a, m !! k = Some (Attested a) -> submitter a = k.
End WithVerifier.
End Registry.

(** ** Scripts: programs that call their environment *)

Module Script.
Section WithEvents.
(** The calls a script makes to its environment; a call of type [E R] is
    answered with a value of type [R]. *)
Variable E : Type -> Type.

(** A script: it returns, or calls [process.exit], or makes a call and
    goes on with the answer. *)
Inductive prog (A : Type) : Type :=
| Ret (a : A)
| Exit (code : Z)
| Vis (R : Type) (e : E R) (k : R -> prog A).

Inductive outcome (A : Type) : Type :=
| Returned (a : A)
| Exited (code : Z).

(** A call together with the answer it got. *)
Inductive occurrence : Type :=
| Occ (R : Type) (e : E R) (r : R).

(** An environment: a state and the answer it gives to each call. *)
Definition handler (S : Type) : Type := forall R : Type, E R -> S -> R * S.
End WithEvents.

Arguments Ret {E A} a.
Arguments Exit {E A} code.
Arguments Vis {E A R} e k.
Arguments Returned {A} a.
Arguments Exited {A} code.
Arguments Occ {E R} e r.

Section Semantics.
Context {E : Type -> Type}.

Fixpoint bind {A B : Type} (m : prog E A) (f : A -> prog E B) : prog E B :=
  match m with
  | Ret a => f a
  | Exit c => Exit c
  | Vis e k => Vis e (fun r => bind (k r) f)
  end.

Definition call {R : Type} (e : E R) : prog E R := Vis e Ret.

(** Running a script in an environment: the calls made, in order, with
    their answers; how the script ended; the state the environment is left
    in. *)
Fixpoint run {A S : Type} (h : handler E S) (p : prog E A) (s : S)
    : list (occurrence E) * outcome A * S :=
  match p with
  | Ret a => ([], Returned a, s)
  | Exit c => ([], Exited c, s)
  | Vis e k =>
      let (r, s') := h _ e s in
      let '(tr, o, s'') := run h (k r) s' in
      (Occ e r :: tr, o, s'')
  end.

Definition trace {A S : Type} (x : list (occurrence E) * outcome A * S)
    : list (occurrence E) := fst (fst x).

Definition result_of {A S : Type} (x : list (occurrence E) * outcome A * S)
    : outcome A := snd (fst x).

(** A property of every run: whatever the answers, the calls made and the
    way the script ends satisfy [P]. *)
Fixpoint all_runs {A : Type} (P : list (occurrence E) -> outcome A -> Prop)
    (p : prog E A) : Prop :=
  match p with
  | Ret a => P [] (Returned a)
  | Exit c => P [] (Exited c)
  | Vis e k => forall r, all_runs (fun tr o => P (Occ e r :: tr) o) (k r)
  end.
End Semantics.
End Script.

Declare Scope prog_scope.
Delimit Scope prog_scope with prog.

Module ScriptNotations.
Notation "x <~ c1 ;; c2" := (Script.bind c1 (fun x => c2))
  (at level 100, c1 at next level, right associativity) : prog_scope.
Notation "c1 ;;; c2" := (Script.bind c1 (fun _ => c2))
  (at level 100, right associativity) : prog_scope.
End ScriptNotations.

(** ** The trusted-setup helper ([scripts/setup_zk.js]) *)

Module SetupZk.
Import Script ScriptNotations.
Local Open Scope prog_scope.

(** A path, as the list of its segments. *)
Definition path := list string.

(** [path.join(p, seg)] *)
Definition join (p : path) (seg : string) : path := p ++ [seg].

(** [path.basename(p)] *)
Definition basename (p : path) : string := last p ""%string.

(** [path.relative(from, to)]: up from [from] to the common ancestor, then
    down to [to]. *)
Fixpoint relative (from to : path) : path :=
  match from, to with
  | a :: from', b :: to' =>
      if String.eqb a b then relative from' to'
      else repeat ".."%string (length from) ++ to
  | _, _ => repeat ".."%string (length from) ++ to
  end.

Section WithSnarkjs.
(** What the script handles without looking inside: the exceptions its
    calls throw, the verification key object and the verifier template of
    snarkjs, and [JSON.stringify(_, null, 2)] on a verification key, which
    gives a string or throws. *)
Context {Exn VerificationKey Template : Type}.
Variable stringify : VerificationKey -> result Exn string.

(** [__dirname]: the directory the script is in. *)
Variable dirname : path.

(** The lines the script prints, one constructor per [console.log] or
    [console.error] of the source, with the values its template string
    interpolates. *)
Inductive message :=
| Starting (circuit : string)
| BaseDirectory (dir : path)
| PtauNotFound (file : path)
| PtauDownloadHint
| PtauPlaceHint (dir : path)
| CircuitNotFound (file : path)
| CheckingArtifacts (dir : path)
| ArtifactsNotFound (dir : path)
| RunCompileHint
| FoundArtifacts
| GeneratingZkey (file : string)
| ZkeyGenerated
| ErrorZkey (error : Exn)
| Contributing (file : string)
| ContributionComplete
| ErrorContribution (error : Exn)
| ExportingKey (file : string)
| KeyExported
| ErrorKey (error : Exn)
| GeneratingVerifier (file : string)
| VerifierGenerated
| ErrorVerifier (error : Exn)
| SetupComplete
| Summary
| SummaryProvingKey (file : path)
| SummaryVerificationKey (file : path)
| SummaryVerifier (file : path)
| SetupFailed (error : Exn).

(** The calls of the script: [fs], [snarkjs.zKey] and [console].  A call
    that can throw is answered with [Err] of the exception.  The logger the
    script hands to snarkjs is [console] in every call and is left out. *)
Inductive event : Type -> Type :=
| ExistsSync (file : path) : event bool
| WriteFileSync (file : path) (data : string) : event (result Exn unit)
| NewZKey (r1cs ptau zkey : path) : event (result Exn unit)
| Contribute (zkeyOld zkeyNew : path) (name entropy : string)
    : event (result Exn unit)
| ExportVerificationKey (zkey : path) : event (result Exn VerificationKey)
| GetVerifierGroth16 : event (result Exn Template)
| ExportSolidityVerifier (zkey : path) (groth16 : Template)
    : event (result Exn string)
| ConsoleLog (m : message) : event unit
| ConsoleError (m : message) : event unit.

Definition log (m : message) : prog event unit := call (ConsoleLog m).
Definition error (m : message) : prog event unit := call (ConsoleError m).

(** Inside a [try] block: the next statement runs only if the call did
    not throw. *)
Definition and_then {A B : Type} (m : prog event (result Exn A))
    (f : A -> prog event (result Exn B)) : prog event (result Exn B) :=
  r <~ m ;;
  match r with
  | Ok a => f a
  | Err e => Ret (Err e)
  end.

(** [try { body } catch (error) { handler }] *)
Definition try_catch {A : Type} (body : prog event (result Exn A))
    (handler : Exn -> prog event A) : prog event A :=
  r <~ body ;;
  match r with
  | Ok a => Ret a
  | Err e => handler e
  end.

(** [// --- Configuration ---] *)
Definition circuitName : string := "attestation".
Definition ptauName : string := "powersOfTau28_hez_final_14.ptau".
Definition baseDir : path := removelast dirname.
Definition zkOutDir : path := join baseDir "zk-out".
Definition circuitsDir : path := join baseDir "circuits".
Definition contractsDir : path := join baseDir "contracts".
Definition ptauPath : path := join circuitsDir ptauName.
Definition circuitFilePath : path :=
  join (join circuitsDir circuitName) (String.append circuitName ".circom").

(** The paths [setup] computes on its way. *)
Definition r1csPath : path := join zkOutDir (String.append circuitName ".r1cs").
Definition wasmPath : path :=
  join (join zkOutDir (String.append circuitName "_js"))
       (String.append circuitName ".wasm").
Definition symPath : path := join zkOutDir (String.append circuitName ".sym").
Definition zkeyPathPhase1 : path :=
  join zkOutDir (String.append circuitName "_0000.zkey").
Definition zkeyPathFinal : path :=
  join zkOutDir (String.append circuitName "_final.zkey").
Definition verificationKeyPath : path :=
  join zkOutDir (String.append circuitName "_verification_key.json").
Definition verifierContractPath : path := join contractsDir "Verifier.sol".

(** [// --- Pre-checks ---] *)
Definition pre_checks : prog event unit :=
  ptau <~ call (ExistsSync ptauPath) ;;
  (if negb ptau then
     error (PtauNotFound ptauPath) ;;;
     error PtauDownloadHint ;;;
     error (PtauPlaceHint (relative baseDir circuitsDir)) ;;;
     Exit 1
   else Ret tt) ;;;
  circuit <~ call (ExistsSync circuitFilePath) ;;
  (if negb circuit then
     error (CircuitNotFound circuitFilePath) ;;;
     Exit 1
   else Ret tt).

(** [!fs.existsSync(r1csPath) || !fs.existsSync(wasmPath) ||
    !fs.existsSync(symPath)], evaluated left to right and no further than
    needed. *)
Definition artifact_missing : prog event bool :=
  r1cs <~ call (ExistsSync r1csPath) ;;
  if negb r1cs then Ret true
  else
    wasm <~ call (ExistsSync wasmPath) ;;
    if negb wasm then Ret true
    else
      sym <~ call (ExistsSync symPath) ;;
      Ret (negb sym).

(** [// --- Check for Compiled Artifacts ---] *)
Definition check_artifacts : prog event unit :=
  log (CheckingArtifacts zkOutDir) ;;;
  missing <~ artifact_missing ;;
  if missing then
    error (ArtifactsNotFound zkOutDir) ;;;
    error RunCompileHint ;;;
    Exit 1
  else log FoundArtifacts.

(** [// --- Step 2: Generate Initial ZKey ---] *)
Definition step2 : prog event unit :=
  log (GeneratingZkey (basename zkeyPathPhase1)) ;;;
  try_catch
    (and_then (call (NewZKey r1csPath ptauPath zkeyPathPhase1)) (fun _ =>
     log ZkeyGenerated ;;; Ret (Ok tt)))
    (fun e => error (ErrorZkey e) ;;; Exit 1).

(** [// --- Step 3: Contribute to Phase 2 ---] *)
Definition step3 : prog event unit :=
  log (Contributing (basename zkeyPathFinal)) ;;;
  try_catch
    (and_then
       (call (Contribute zkeyPathPhase1 zkeyPathFinal "Demo Contribution 1"
                "Some random entropy string for demo")) (fun _ =>
     log ContributionComplete ;;; Ret (Ok tt)))
    (fun e => error (ErrorContribution e) ;;; Exit 1).

(** [// --- Step 4: Export Verification Key ---] *)
Definition step4 : prog event unit :=
  log (ExportingKey (basename verificationKeyPath)) ;;;
  try_catch
    (and_then (call (ExportVerificationKey zkeyPathFinal)) (fun verificationKey =>
     and_then (Ret (stringify verificationKey)) (fun json =>
     and_then (call (WriteFileSync verificationKeyPath json)) (fun _ =>
     log KeyExported ;;; Ret (Ok tt)))))
    (fun e => error (ErrorKey e) ;;; Exit 1).

(** [// --- Step 5: Generate Verifier Contract ---] *)
Definition step5 : prog event unit :=
  log (GeneratingVerifier (basename verifierContractPath)) ;;;
  try_catch
    (and_then (call GetVerifierGroth16) (fun groth16 =>
     and_then (call (ExportSolidityVerifier zkeyPathFinal groth16)) (fun verifierCode =>
     and_then (call (WriteFileSync verifierContractPath verifierCode)) (fun _ =>
     log VerifierGenerated ;;; Ret (Ok tt)))))
    (fun e => error (ErrorVerifier e) ;;; Exit 1).

(** The closing summary. *)
Definition summary : prog event unit :=
  log SetupComplete ;;;
  log Summary ;;;
  log (SummaryProvingKey (relative baseDir zkeyPathFinal)) ;;;
  log (SummaryVerificationKey (relative baseDir verificationKeyPath)) ;;;
  log (SummaryVerifier (relative baseDir verifierContractPath)).

(** [async function setup()] *)
Definition setup : prog event unit :=
  log (Starting circuitName) ;;;
  log (BaseDirectory baseDir) ;;;
  pre_checks ;;;
  check_artifacts ;;;
  step2 ;;;
  step3 ;;;
  step4 ;;;
  step5 ;;;
  summary.

(** [setup().catch(err => { ... })]: what [node scripts/setup_zk.js]
    runs.  The calls [setup] makes outside a [try] block are
    [fs.existsSync] and [console], which do not throw: [setup] returns or
    exits. *)
Definition main : prog event unit :=
  try_catch (setup ;;; Ret (Ok tt))
    (fun err => error (SetupFailed err) ;;; Exit 1).

(** The calls that touch files or keys, without what they were answered
    and without the data written. *)
Inductive action :=
| DoNewZKey (r1cs ptau zkey : path)
| DoContribute (zkeyOld zkeyNew : path) (name entropy : string)
| DoExportVerificationKey (zkey : path)
| DoGetVerifierGroth16
| DoExportSolidityVerifier (zkey : path)
| DoWriteFileSync (file : path).

Definition action_of (o : occurrence event) : option action :=
  match o with
  | Occ e _ =>
      match e with
      | NewZKey r1cs ptau zkey => Some (DoNewZKey r1cs ptau zkey)
      | Contribute zo zn name entropy => Some (DoContribute zo zn name entropy)
      | ExportVerificationKey zkey => Some (DoExportVerificationKey zkey)
      | GetVerifierGroth16 => Some DoGetVerifierGroth16
      | ExportSolidityVerifier zkey _ => Some (DoExportSolidityVerifier zkey)
      | WriteFileSync file _ => Some (DoWriteFileSync file)
      | ExistsSync _ | ConsoleLog _ | ConsoleError _ => None
      end
  end.

Definition actions (tr : list (occurrence event)) : list action :=
  omap action_of tr.

(** The order of the steps of the source. *)
Definition pipeline : list action :=
  [ DoNewZKey r1csPath ptauPath zkeyPathPhase1;
    DoContribute zkeyPathPhase1 zkeyPathFinal "Demo Contribution 1"
      "Some random entropy string for demo";
    DoExportVerificationKey zkeyPathFinal;
    DoWriteFileSync verificationKeyPath;
    DoGetVerifierGroth16;
    DoExportSolidityVerifier zkeyPathFinal;
    DoWriteFileSync verifierContractPath ].

(** The files an action creates or replaces. *)
Definition output_of (a : action) : option path :=
  match a with
  | DoNewZKey _ _ zkey => Some zkey
  | DoContribute _ zkey _ _ => Some zkey
  | DoWriteFileSync file => Some file
  | DoExportVerificationKey _ | DoGetVerifierGroth16
  | DoExportSolidityVerifier _ => None
  end.

(** The files the script requires before it starts. *)
Definition required : list path :=
  [ptauPath; circuitFilePath; r1csPath; wasmPath; symPath].

(** The existence checks of a run, with their answers. *)
Definition check_of (o : occurrence event) : option (path * bool) :=
  match o with
  | Occ e r =>
      match e in event R return R -> option (path * bool) with
      | ExistsSync file => fun b => Some (file, b)
      | _ => fun _ => None
      end r
  end.

Definition checks (tr : list (occurrence event)) : list (path * bool) :=
  omap check_of tr.

Definition exn_of {A : Type} (r : result Exn A) : option Exn :=
  match r with
  | Ok _ => None
  | Err e => Some e
  end.

(** The exception a call threw, if it threw. *)
Definition thrown (o : occurrence event) : option Exn :=
  match o with
  | Occ e r =>
      match e in event R return R -> option Exn with
      | WriteFileSync _ _ | NewZKey _ _ _ | Contribute _ _ _ _ => exn_of
      | ExportVerificationKey _ => exn_of
      | GetVerifierGroth16 => exn_of
      | ExportSolidityVerifier _ _ => exn_of
      | ExistsSync _ => fun _ => None
      | ConsoleLog _ | ConsoleError _ => fun _ => None
      end r
  end.

(** An answer that makes the script give up: a file that does not exist,
    or a call that throws. *)
Definition failed (o : occurrence event) : bool :=
  match check_of o, thrown o with
  | Some (_, false), _ => true
  | _, Some _ => true
  | _, _ => false
  end.

(** The lines written with [console.error], and the exception such a line
    reports. *)
Definition console_error_of (o : occurrence event) : option message :=
  match o with
  | Occ e _ => match e with ConsoleError m => Some m | _ => None end
  end.

Definition console_errors (tr : list (occurrence event)) : list message :=
  omap console_error_of tr.

Definition reported (m : message) : option Exn :=
  match m with
  | ErrorZkey e | ErrorContribution e | ErrorKey e | ErrorVerifier e
  | SetupFailed e => Some e
  | _ => None
  end.

(** The lines written with [console.log]. *)
Definition console_log_of (o : occurrence event) : option message :=
  match o with
  | Occ e _ => match e with ConsoleLog m => Some m | _ => None end
  end.

Definition console_logs (tr : list (occurrence event)) : list message :=
  omap console_log_of tr.

(** The data handed to [fs.writeFileSync], by file. *)
Definition write_of (o : occurrence event) : option (path * string) :=
  match o with
  | Occ e _ =>
      match e with WriteFileSync file data => Some (file, data) | _ => None end
  end.

Definition writes (tr : list (occurrence event)) : list (path * string) :=
  omap write_of tr.

(** After an answer that makes the script give up, nothing follows but
    lines on [console.error]. *)
Fixpoint quiet_after_failure (tr : list (occurrence event)) : bool :=
  match tr with
  | [] => true
  | x :: tr' =>
      (if failed x
       then forallb (fun y => bool_decide (is_Some (console_error_of y))) tr'
       else true)
      && quiet_after_failure tr'
  end.

(** A call that throws is followed by one line on [console.error], which
    reports the exception, and by nothing else. *)
Fixpoint reports_thrown (tr : list (occurrence event)) : Prop :=
  match tr with
  | [] => True
  | x :: tr' =>
      match thrown x with
      | Some e =>
          exists m, tr' = [Occ (ConsoleError m) tt] /\ reported m = Some e
      | None => reports_thrown tr'
      end
  end.
End WithSnarkjs.
End SetupZk.

(** ** The npm scripts ([package.json]) *)

Module PackageJson.
Import Script ScriptNotations.
Local Open Scope prog_scope.

(** A script is a command line of [cmd.exe], the shell [npm run] hands a
    script to on Windows ([if not exist] is its syntax).  The command of an
    [if] is the rest of its line, [&&] and what follows included. *)
Inductive command :=
| Simple (program : string) (args : list string)
| IfNotExist (file : string) (body : command)
| AndAnd (first second : command).

(** ["compile:circuit": "if not exist zk-out mkdir zk-out && if not exist
    zk-out\\attestation_js mkdir zk-out\\attestation_js && circom
    circuits/attestation/attestation.circom --r1cs --wasm --sym -o zk-out"] *)
Definition compile_circuit : command :=
  IfNotExist "zk-out"
    (AndAnd (Simple "mkdir" ["zk-out"])
       (IfNotExist "zk-out\attestation_js"
          (AndAnd (Simple "mkdir" ["zk-out\attestation_js"])
             (Simple "circom"
                ["circuits/attestation/attestation.circom";
                 "--r1cs"; "--wasm"; "--sym"; "-o"; "zk-out"])))).

(** ["setup:zk": "npm run compile:circuit && node scripts/setup_zk.js"] *)
Definition setup_zk : command :=
  AndAnd (Simple "npm" ["run"; "compile:circuit"])
         (Simple "node" ["scripts/setup_zk.js"]).

(** The ["scripts"] object. *)
Definition scripts : list (string * command) :=
  [ ("compile:circuit", compile_circuit);
    ("setup:zk", setup_zk);
    ("compile:contracts", Simple "hardhat" ["compile"]);
    ("deploy:local",
       Simple "hardhat" ["run"; "scripts/deploy.js"; "--network"; "hardhat"]);
    ("start:asp",
       Simple "uvicorn"
         ["main:app"; "--reload"; "--port"; "8000"; "--app-dir"; "asp-service"]);
    ("submit",
       Simple "hardhat"
         ["run"; "scripts/submit_attestation.js"; "--network"; "hardhat"]) ].

Fixpoint script (name : string) (table : list (string * command)) : option command :=
  match table with
  | [] => None
  | (n, c) :: table' => if String.eqb n name then Some c else script name table'
  end.

(** What a script asks of the system: whether a file or directory exists,
    and to run a program to its end, answered by whether its exit code
    was 0. *)
Inductive event : Type -> Type :=
| Exist (file : string) : event bool
| Start (program : string) (args : list string) : event bool.

(** One command line.  [npm] is what [npm run <name>] does.  The result is
    whether the line succeeded (an [if] whose test fails leaves the exit
    code as it is, which is 0 wherever a script has one); it is [None] when
    [npm run] is nested deeper than [npm] allows. *)
Fixpoint exec (npm : string -> prog event (option bool)) (c : command)
    : prog event (option bool) :=
  match c with
  | Simple program args =>
      match program, args with
      | "npm"%string, ["run"%string; name] => npm name
      | _, _ => ok <~ call (Start program args) ;; Ret (Some ok)
      end
  | IfNotExist file body =>
      found <~ call (Exist file) ;;
      if negb found then exec npm body else Ret (Some true)
  | AndAnd first second =>
      r <~ exec npm first ;;
      match r with
      | Some true => exec npm second
      | _ => Ret r
      end
  end.

(** [npm run <name>]: a script that is not in the table is an error. *)
Fixpoint npm_run (depth : nat) (name : string) : prog event (option bool) :=
  match depth with
  | O => Ret None
  | S depth' =>
      match script name scripts with
      | Some c => exec (npm_run depth') c
      | None => Ret (Some false)
      end
  end.

(** The programs a run started, with their arguments. *)
Definition started (o : occurrence event) : option (string * list string) :=
  match o with
  | Occ e _ =>
      match e with
      | Start program args => Some (program, args)
      | Exist _ => None
      end
  end.

Definition programs (tr : list (occurrence event)) : list (string * list string) :=
  omap started tr.

(** The programs a run started, with whether each ended with exit
    code 0. *)
Definition finished_of (o : occurrence event)
    : option (string * list string * bool) :=
  match o with
  | Occ e r =>
      match e in event R return R -> option (string * list string * bool) with
      | Start program args => fun ok => Some (program, args, ok)
      | Exist _ => fun _ => None
      end r
  end.

Definition finished (tr : list (occurrence event))
    : list (string * list string * bool) :=
  omap finished_of tr.

(** The programs of a run that ended with another exit code than 0. *)
Definition failure_of (o : occurrence event) : option (string * list string) :=
  match o with
  | Occ e r =>
      match e in event R return R -> option (string * list string) with
      | Start program args => fun ok => if ok then None else Some (program, args)
      | Exist _ => fun _ => None
      end r
  end.

Definition failures (tr : list (occurrence event)) : list (string * list string) :=
  omap failure_of tr.

Definition succeeded (tr : list (occurrence event)) : bool :=
  match failures tr with
  | [] => true
  | _ :: _ => false
  end.

(** The [exist] tests of a run, with their answers. *)
Definition test_of (o : occurrence event) : option (string * bool) :=
  match o with
  | Occ e r =>
      match e in event R return R -> option (string * bool) with
      | Exist file => fun found => Some (file, found)
      | Start _ _ => fun _ => None
      end r
  end.

Definition tests (tr : list (occurrence event)) : list (string * bool) :=
  omap test_of tr.
End PackageJson.

(** ** Concrete inputs

    Small inputs on which the definitions above are run. *)

Module Sample.
(** A toy compression function over the field, to run the circuit on. *)
Definition hashF (a b : F) : F :=
  (a * a + Zmod.of_Z bn128_r 3 * b + Zmod.of_Z bn128_r 7)%Zmod.

Definition leavesF : list F := map (Zmod.of_Z bn128_r) [11; 22; 33; 44; 55].

Definition treeF := MerkleTreeBuilder.build hashF Zmod.zero leavesF.

Definition pathF : MerkleTreeBuilder.Path F :=
  match MerkleTreeBuilder.pathFor Zmod.zero (snd treeF) 2 with
  | Ok p => p
  | Err _ => {| MerkleTreeBuilder.pathElements := [];
                MerkleTreeBuilder.pathIndices := [] |}
  end.

Definition pubF : Attestation.public_inputs :=
  {| Attestation.root := fst treeF;
     Attestation.knownBadLeafHash := Zmod.of_Z bn128_r 22 |}.

Definition privF : Attestation.private_inputs :=
  private_of_path (Zmod.of_Z bn128_r 33) pathF.

(** The same inputs with the flagged leaf as the proven leaf. *)
Definition privBad : Attestation.private_inputs :=
  private_of_path (Zmod.of_Z bn128_r 22) pathF.

(** The same inputs with a direction index that is not a bit. *)
Definition privNonBit : Attestation.private_inputs :=
  {| Attestation.leaf := Attestation.leaf privF;
     Attestation.pathElements := Attestation.pathElements privF;
     Attestation.pathIndices :=
       [Zmod.zero; Zmod.one; Zmod.of_Z bn128_r 2; Zmod.zero] |}.

(** A bad-leaf value that is nowhere in the tree. *)
Definition outsider : F := Zmod.of_Z bn128_r 999.

(** A collision-free compression function on unbounded naturals. *)
Definition pairN (a b : N) : N := ((a + b) * (a + b + 1) + 2 * b)%N.

Definition leavesN : list N := [3; 1; 4; 1; 5]%N.

(** A registry with a permissive verifier and one registered submitter. *)
Definition accept_encoding (prf : Z) : bool := 0 <=? prf.
Definition accept_proof (k prf : Z) (sig : list F) : bool := prf =? k.

Definition register2 : Registry.transaction (ProofComponents := Z) :=
  {| Registry.caller := 1; Registry.now := 10;
     Registry.payload := Registry.RegisterSubmitter 2 |}.

Definition registry0 : Registry.state (ProofComponents := Z) :=
  Registry.initial 1 7.

Definition registry1 : Registry.state (ProofComponents := Z) :=
  Registry.run accept_encoding accept_proof [register2] registry0.

Definition signalsA : list F := [Zmod.of_Z bn128_r 100; Zmod.of_Z bn128_r 22].
Definition signalsB : list F := [Zmod.of_Z bn128_r 200; Zmod.of_Z bn128_r 22].

Definition registry2 : Registry.state (ProofComponents := Z) :=
  match Registry.submitAttestation accept_encoding accept_proof 2 20 7 signalsA
          registry1 with
  | Ok st => st
  | Err _ => registry1
  end.

Definition registry3 : Registry.state (ProofComponents := Z) :=
  match Registry.submitAttestation accept_encoding accept_proof 2 30 7 signalsB
          registry2 with
  | Ok st => st
  | Err _ => registry2
  end.

End Sample.

(** ** Concrete environments for the scripts *)

Module SetupSample.
Import Script.

(** The script in [scripts/] of a checkout. *)
Definition dirname : SetupZk.path := ["home"; "asp"; "zk-asp-attestation"; "scripts"].

(** Exceptions, keys and templates are strings here; a key is its own
    JSON text. *)
Definition stringify (vk : string) : result string string := Ok vk.

(** A disk: the files on it, and whether [fs.writeFileSync] may write. *)
Record disk := { files : list SetupZk.path; writable : bool }.

Definition create (file : SetupZk.path) (d : disk) : disk :=
  {| files := file :: files d; writable := writable d |}.

Definition has (d : disk) (file : SetupZk.path) : bool :=
  bool_decide (file ∈ files d).

(** snarkjs and [fs] on a disk: a key is made from files that are there,
    and a write is refused on a disk that is not writable. *)
Definition system : handler (@SetupZk.event string string string) disk :=
  fun R e d =>
    match e in SetupZk.event R return R * disk with
    | SetupZk.ExistsSync file => (has d file, d)
    | SetupZk.WriteFileSync file _ =>
        if writable d then (Ok tt, create file d) else (Err "EACCES", d)
    | SetupZk.NewZKey r1cs ptau zkey =>
        if has d r1cs && has d ptau then (Ok tt, create zkey d)
        else (Err "ENOENT", d)
    | SetupZk.Contribute zkeyOld zkeyNew _ _ =>
        if has d zkeyOld then (Ok tt, create zkeyNew d) else (Err "ENOENT", d)
    | SetupZk.ExportVerificationKey zkey =>
        if has d zkey then (Ok "{protocol: groth16}", d) else (Err "ENOENT", d)
    | SetupZk.GetVerifierGroth16 => (Ok "verifier_groth16.sol.ejs", d)
    | SetupZk.ExportSolidityVerifier zkey _ =>
        if has d zkey then (Ok "contract Verifier {}", d) else (Err "ENOENT", d)
    | SetupZk.ConsoleLog _ => (tt, d)
    | SetupZk.ConsoleError _ => (tt, d)
    end.

(** A checkout after [npm run compile:circuit], with the Powers of Tau
    file in place. *)
Definition ready : disk :=
  {| files := SetupZk.required dirname; writable := true |}.

(** The same, on a disk that refuses writes. *)
Definition read_only : disk :=
  {| files := SetupZk.required dirname; writable := false |}.

(** A checkout in which the circuit was not compiled. *)
Definition not_compiled : disk :=
  {| files := [SetupZk.ptauPath dirname; SetupZk.circuitFilePath dirname];
     writable := true |}.

Definition main : prog (@SetupZk.event string string string) unit :=
  SetupZk.main stringify dirname.
End SetupSample.

Module NpmSample.
Import Script.

(** A working directory: the entries in it.  [mkdir] adds one, and fails
    on one that is there; [circom] fails when told to; every other program
    succeeds. *)
Record cwd := { entries : list string; circom_ok : bool }.

Definition shell : handler PackageJson.event cwd :=
  fun R e d =>
    match e in PackageJson.event R return R * cwd with
    | PackageJson.Exist file => (bool_decide (file ∈ entries d), d)
    | PackageJson.Start program args =>
        if String.eqb program "mkdir" then
          match args with
          | [dir] =>
              if bool_decide (dir ∈ entries d) then (false, d)
              else (true, {| entries := dir :: entries d;
                             circom_ok := circom_ok d |})
          | _ => (false, d)
          end
        else if String.eqb program "circom" then (circom_ok d, d)
        else (true, d)
    end.

Definition fresh : cwd := {| entries := []; circom_ok := true |}.
Definition fresh_broken : cwd := {| entries := []; circom_ok := false |}.
Definition compiled_before : cwd :=
  {| entries := ["zk-out"; "zk-out\attestation_js"]; circom_ok := true |}.
End NpmSample.

Module ShallowSample.
(** Inputs for [Attestation(2)]: the leaf is a left child at the bottom
    and a right child above. *)
Definition priv : Attestation.private_inputs :=
  {| Attestation.leaf := Zmod.of_Z bn128_r 5;
     Attestation.pathElements := [Zmod.of_Z bn128_r 7; Zmod.of_Z bn128_r 9];
     Attestation.pathIndices := [Zmod.zero; Zmod.one] |}.

Definition pub : Attestation.public_inputs :=
  {| Attestation.root :=
       Sample.hashF (Zmod.of_Z bn128_r 9)
         (Sample.hashF (Zmod.of_Z bn128_r 5) (Zmod.of_Z bn128_r 7));
     Attestation.knownBadLeafHash := Zmod.of_Z bn128_r 6 |}.

(** The same root beside another flagged leaf. *)
Definition pub' : Attestation.public_inputs :=
  {| Attestation.root := Attestation.root pub;
     Attestation.knownBadLeafHash := Zmod.of_Z bn128_r 8 |}.
End ShallowSample.

(* ===================================================================== *)
(** * Part II: properties *)
(* ===================================================================== *)

(** ** The modulus is prime *)

Lemma small_divisor_dec k m :
  0 <= m ->
  (exists n, 1 < n < m /\ (n | k)) \/ (forall n, 1 < n < m -> ~ (n | k)).
Proof.
  intros Hm. pattern m. apply natlike_ind; trivial.
  - right. intros n Hn. lia.
  - intros x Hx [(n & Hn & Hd) | Hnone].
    + left. exists n. split; [lia | assumption].
    + destruct (Z.BoolSpec_divide x k) as [Hd | Hd].
      * destruct (Z_lt_le_dec 1 x) as [H1 | H1].
        -- left. exists x. split; [lia | assumption].
        -- right. intros n Hn. lia.
      * right. intros n Hn.
        destruct (Z.eq_dec n x) as [-> | Hne]; [assumption | apply Hnone; lia].
Qed.

Lemma exists_prime_divisor k : 2 <= k -> exists p, Z.prime p /\ (p | k).
Proof.
  intros Hk.
  assert (Hpos : 0 <= k) by lia.
  revert Hk. pattern k. apply (Zlt_0_ind); trivial.
  clear k Hpos. intros k IH _ Hk.
  destruct (small_divisor_dec k k ltac:(lia)) as [(n & Hn & Hd) | Hnone].
  - destruct (IH n ltac:(lia) ltac:(lia)) as (p & Hp & Hpn).
    exists p. split; [assumption | eapply Z.divide_trans; eassumption].
  - exists k. split; [split; [lia | assumption] | apply Z.divide_refl].
Qed.

Section Lucas.
Variables (n a : Z) (qs : list Z).
Hypothesis n_ge_2 : 2 <= n.
Hypothesis a_pow : a ^ (n - 1) mod n = 1.
Hypothesis qs_complete : forall q, Z.prime q -> (q | n - 1) -> In q qs.
Hypothesis a_gcd : forall q, In q qs -> Z.gcd (a ^ ((n - 1) / q) mod n - 1) n = 1.

Section Divisor.
Variable p : Z.
Hypothesis p_prime : Z.prime p.
Hypothesis p_div : (p | n).

Let p_ge_2 : 2 <= p := Z.prime_ge_2 p p_prime.

Lemma a_pow_p : a ^ (n - 1) mod p = 1.
Proof.
  rewrite <- (Z.mod_mod_divide _ n p p_div), a_pow.
  apply Z.mod_small. lia.
Qed.

Lemma a_coprime_p : Z.coprime (Zmod.to_Z (Zmod.of_Z p a)) p.
Proof.
  rewrite Zmod.unsigned_of_Z. apply Z.coprime_mod_l_iff.
  symmetry. apply Z.coprime_prime_l; trivial.
  intros Hd.
  assert (Hz : a ^ (n - 1) mod p = 0).
  { apply Z.mod0_divide. eapply Z.divide_trans; [exact Hd |].
    apply Z.divide_pow_same_r. lia. }
  pose proof a_pow_p. lia.
Qed.

Let x : Zstar p := Zstar.of_Zmod (Zmod.of_Z p a).

Lemma pow_x_one e : 0 <= e -> Zstar.pow x e = Zstar.one <-> a ^ e mod p = 1.
Proof.
  intros He. rewrite <- Zstar.to_Zmod_inj_iff.
  rewrite Zstar.to_Zmod_pow, Zstar.to_Zmod_1.
  unfold x. rewrite Zstar.to_Zmod_of_Zmod by apply a_coprime_p.
  rewrite <- Zmod.of_Z_pow by trivial.
  unfold Zmod.one. rewrite Zmod.of_Z_inj.
  rewrite (Z.mod_small 1 p) by lia. reflexivity.
Qed.

Lemma pow_x_gcd : Zstar.pow x (Z.gcd (n - 1) (p - 1)) = Zstar.one.
Proof.
  destruct (Z.gcd_bezout (n - 1) (p - 1) _ eq_refl) as (u & v & Huv).
  rewrite <- Huv.
  rewrite Zstar.pow_add_r.
  rewrite (Z.mul_comm u), (Z.mul_comm v), !Zstar.pow_mul_r.
  replace (p - 1) with (Z.pred p) by lia.
  rewrite Zstar.fermat by trivial.
  rewrite (proj2 (pow_x_one (n - 1) ltac:(lia)) a_pow_p).
  rewrite !Zstar.pow_1_l. apply Zstar.mul_1_l.
Qed.

Lemma gcd_full : Z.gcd (n - 1) (p - 1) = n - 1.
Proof.
  set (g := Z.gcd (n - 1) (p - 1)).
  assert (Hg0 : 0 <= g) by apply Z.gcd_nonneg.
  destruct (Z.gcd_divide_l (n - 1) (p - 1)) as [k Hk]. fold g in Hk.
  assert (Hgpos : 0 < g).
  { destruct (Z.eq_dec g 0) as [E | E]; [| lia]. rewrite E in Hk. lia. }
  assert (Hkpos : 1 <= k) by nia.
  destruct (Z.eq_dec k 1) as [-> | Hk1]; [lia |].
  exfalso.
  destruct (exists_prime_divisor k ltac:(lia)) as (q & Hq & [j Hj]).
  pose proof (Z.prime_ge_2 q Hq) as Hq2.
  assert (Hqn : (q | n - 1)).
  { exists (j * g). rewrite Hk, Hj. ring. }
  assert (Hdiv : (n - 1) / q = g * j).
  { rewrite Hk, Hj. replace (j * q * g) with (g * j * q) by ring.
    apply Z.div_mul. lia. }
  assert (Hj0 : 0 <= j) by nia.
  assert (Hone : a ^ ((n - 1) / q) mod p = 1).
  { apply pow_x_one; [rewrite Hdiv; nia |].
    rewrite Hdiv, Zstar.pow_mul_r.
    unfold g. rewrite pow_x_gcd. apply Zstar.pow_1_l. }
  pose proof (a_gcd q (qs_complete q Hq Hqn)) as Hgcd.
  assert (Hp1 : (p | a ^ ((n - 1) / q) mod n - 1)).
  { apply Z.mod_divide; [lia |].
    rewrite <- Zminus_mod_idemp_l, (Z.mod_mod_divide _ n p p_div), Hone.
    reflexivity. }
  pose proof (Z.gcd_greatest _ _ _ Hp1 p_div) as Hd1.
  rewrite Hgcd in Hd1. apply Z.divide_1_r in Hd1. lia.
Qed.

Lemma divisor_is_n : p = n.
Proof.
  pose proof gcd_full as Hg.
  pose proof (Z.gcd_divide_r (n - 1) (p - 1)) as Hd. rewrite Hg in Hd.
  apply Z.divide_pos_le in Hd; [| lia].
  apply Z.divide_pos_le in p_div; lia.
Qed.
End Divisor.

Theorem lucas_prime : Z.prime n.
Proof.
  destruct (exists_prime_divisor n n_ge_2) as (p & Hp & Hd).
  rewrite <- (divisor_is_n p Hp Hd). exact Hp.
Qed.
End Lucas.

Lemma factored_complete n fs :
  factored n fs = true ->
  forall q, Z.prime q -> (q | n - 1) ->
  Forall (fun qe => Z.prime (fst qe)) fs -> In q (map fst fs).
Proof.
  unfold factored. rewrite andb_true_iff, Z.eqb_eq. intros [<- Hexp] q Hq.
  clear n. induction fs as [| [q' e] fs IH]; simpl in *; intros Hd Hall.
  - apply Z.divide_1_r in Hd. pose proof (Z.prime_ge_2 q Hq). lia.
  - apply andb_true_iff in Hexp. destruct Hexp as [He Hexp].
    inversion Hall as [| ? ? Hq' Hall']; subst. simpl in *.
    apply Z.divide_prime_mul in Hd; trivial. destruct Hd as [Hd | Hd].
    + left. symmetry. eapply Z.divide_prime_pp; try eassumption. lia.
    + right. apply IH; assumption.
Qed.

Lemma lucas_ok_prime c :
  lucas_ok c = true ->
  Forall (fun qe => Z.prime (fst qe)) (pr_fs c) ->
  Z.prime (pr_n c).
Proof.
  unfold lucas_ok. rewrite !andb_true_iff, forallb_forall.
  intros [[[Hn Hpow] Hfac] Hg] Hall.
  apply Z.leb_le in Hn. apply Z.eqb_eq in Hpow.
  rewrite Zpow_mod_correct in Hpow by lia.
  apply (lucas_prime (pr_n c) (pr_a c) (map fst (pr_fs c))); trivial.
  - intros q Hq Hd. eapply factored_complete; eassumption.
  - intros q Hin. apply in_map_iff in Hin. destruct Hin as (qe & <- & Hin).
    specialize (Hg qe Hin). apply Z.eqb_eq in Hg.
    rewrite Zpow_mod_correct in Hg by lia. exact Hg.
Qed.

Lemma pratt_check_sound cs : forall known,
  Forall Z.prime known ->
  pratt_check known cs = true ->
  Forall Z.prime (map pr_n cs).
Proof.
  induction cs as [| c cs IH]; simpl; intros known Hk Hc; [constructor |].
  rewrite !andb_true_iff in Hc. destruct Hc as [[Hin Hl] Hrest].
  assert (Hp : Z.prime (pr_n c)).
  { apply lucas_ok_prime; trivial.
    rewrite forallb_forall in Hin. apply Forall_forall. intros qe Hqe.
    specialize (Hin qe Hqe). apply existsb_exists in Hin.
    destruct Hin as (k & Hkin & Heq). apply Z.eqb_eq in Heq. rewrite Heq.
    rewrite Forall_forall in Hk. auto. }
  constructor; [exact Hp |].
  apply (IH (pr_n c :: known)); [constructor; assumption | assumption].
Qed.

Lemma bn128_r_prime : Z.prime bn128_r.
Proof.
  assert (Hall : Forall Z.prime (map pr_n bn128_certificate)).
  { apply (pratt_check_sound _ [2]).
    - constructor; [exact Z.prime_2 | constructor].
    - vm_compute. reflexivity. }
  rewrite Forall_forall in Hall. apply Hall.
  assert (E : existsb (Z.eqb bn128_r) (map pr_n bn128_certificate) = true)
    by (vm_compute; reflexivity).
  apply existsb_exists in E. destruct E as (x & Hx & Heq).
  apply Z.eqb_eq in Heq. rewrite Heq. exact Hx.
Qed.

(** ** Field facts *)

Add Ring F_ring : (Zmod.ring_theory bn128_r).

(** Splits a boolean check into the equations it tests. *)
Ltac split_checks :=
  repeat match goal with
    | |- _ && _ = true => apply andb_true_iff; split
    | |- Zmod.eqb _ _ = true => apply Zmod.eqb_eq
    | |- Nat.eqb _ _ = true => apply Nat.eqb_eq
    end.

Lemma F_one_neq_zero : (Zmod.one : F) <> Zmod.zero.
Proof. apply Zmod.one_neq_zero. vm_compute. discriminate. Qed.

Lemma F_integral (a b : F) : (a * b)%Zmod = Zmod.zero -> a = Zmod.zero \/ b = Zmod.zero.
Proof. apply (Zmod.mul_0_iff_prime bn128_r_prime). Qed.

Lemma F_bit (x : F) :
  (x * (1 - x))%Zmod = Zmod.zero <-> x = Zmod.zero \/ x = Zmod.one.
Proof.
  split.
  - intros E. apply F_integral in E. destruct E as [E | E]; [left; exact E |].
    right. symmetry. apply Zmod.sub_eq_0. exact E.
  - intros [-> | ->]; ring.
Qed.

Lemma F_inverse (x : F) : x <> Zmod.zero -> (x * Zmod.mdiv 1 x)%Zmod = Zmod.one.
Proof.
  intros Hx. unfold Zmod.mdiv. rewrite Zmod.mul_1_l.
  apply Zmod.mul_inv_same_r_prime; [exact bn128_r_prime | exact Hx].
Qed.

Lemma side_Some (idx : F) (b : bool) :
  Attestation.side idx = Some b <-> idx = bit_to_F b.
Proof.
  unfold Attestation.side.
  destruct (Zmod.eqb_spec idx Zmod.zero) as [-> | H0].
  - split.
    + intros [= <-]. reflexivity.
    + destruct b; simpl; [intros E; symmetry in E; now apply F_one_neq_zero in E | reflexivity].
  - destruct (Zmod.eqb_spec idx Zmod.one) as [-> | H1].
    + split.
      * intros [= <-]. reflexivity.
      * destruct b; simpl; [reflexivity | intros E; now apply F_one_neq_zero in E].
    + split; [discriminate |]. destruct b; simpl; intros ->; congruence.
Qed.

Lemma side_bit (b : bool) : Attestation.side (bit_to_F b) = Some b.
Proof. apply side_Some. reflexivity. Qed.

(** ** The equality-test gadget *)

Lemma IsZero_out (c : IsZero.signals) :
  IsZero.constraints c = true ->
  IsZero.out c = if Zmod.eqb (IsZero.in_ c) Zmod.zero then Zmod.one else Zmod.zero.
Proof.
  unfold IsZero.constraints. rewrite andb_true_iff, !Zmod.eqb_eq.
  intros [Hout Hprod].
  destruct (Zmod.eqb_spec (IsZero.in_ c) Zmod.zero) as [E | E].
  - rewrite Hout, E. ring.
  - apply F_integral in Hprod. destruct Hprod; [contradiction | assumption].
Qed.

Lemma IsZero_witness_ok (x : F) : IsZero.constraints (IsZero.witness x) = true.
Proof.
  unfold IsZero.constraints, IsZero.witness.
  cbn [IsZero.in_ IsZero.out IsZero.inv]. split_checks; [reflexivity |].
  destruct (Zmod.eqb_spec x Zmod.zero) as [-> | E]; [ring |].
  transitivity (x * (1 - x * Zmod.mdiv 1 x))%Zmod; [ring |].
  rewrite (F_inverse x E). ring.
Qed.

Lemma IsEqual_out (c : IsEqual.signals) :
  IsEqual.constraints c = true ->
  IsEqual.out c =
  if Zmod.eqb (IsEqual.in0 c) (IsEqual.in1 c) then Zmod.one else Zmod.zero.
Proof.
  unfold IsEqual.constraints. rewrite !andb_true_iff, !Zmod.eqb_eq.
  intros [[Hin Hisz] Hout].
  rewrite Hout, (IsZero_out _ Hisz), Hin.
  destruct (Zmod.eqb_spec (IsEqual.in0 c) (IsEqual.in1 c)) as [E | E].
  - rewrite E, Zmod.sub_same, Zmod.eqb_refl. reflexivity.
  - destruct (Zmod.eqb_spec (IsEqual.in1 c - IsEqual.in0 c)%Zmod Zmod.zero) as [E' | E'];
      [| reflexivity].
    apply Zmod.sub_eq_0 in E'. congruence.
Qed.

Lemma IsEqual_witness_ok (a b : F) : IsEqual.constraints (IsEqual.witness a b) = true.
Proof.
  unfold IsEqual.constraints, IsEqual.witness.
  cbn [IsEqual.in0 IsEqual.in1 IsEqual.out IsEqual.isz].
  split_checks; [reflexivity | apply IsZero_witness_ok | reflexivity].
Qed.

(** ** The Merkle proof component *)

Lemma last_cons_default {A : Type} (l : list A) :
  forall x d, last (x :: l) d = last l x.
Proof.
  induction l as [| y l IH]; intros x d; [reflexivity |].
  change (last (x :: y :: l) d) with (last (y :: l) d).
  rewrite (IH y d), (IH y x). reflexivity.
Qed.

Section MerkleProofFacts.
Variable H : F -> F -> F.

Lemma level_constraints_sound (cur e idx : F) (l : MerkleProof.level) :
  MerkleProof.level_constraints H cur e idx l = true ->
  exists b, Attestation.side idx = Some b
            /\ MerkleProof.hash l = combine H cur e b.
Proof.
  unfold MerkleProof.level_constraints. rewrite !andb_true_iff, !Zmod.eqb_eq.
  intros [[[[Hs Hbit] Hl] Hr] Hh].
  rewrite Hh, Hl, Hr, Hs. rewrite Hs in Hbit.
  apply F_bit in Hbit. destruct Hbit as [-> | ->].
  - exists false. split; [apply (side_bit false) |].
    unfold combine. f_equal; ring.
  - exists true. split; [apply (side_bit true) |].
    unfold combine. f_equal; ring.
Qed.

Lemma level_witness_ok (cur e : F) (b : bool) :
  MerkleProof.level_constraints H cur e (bit_to_F b)
    (MerkleProof.level_witness H cur e (bit_to_F b)) = true
  /\ MerkleProof.hash (MerkleProof.level_witness H cur e (bit_to_F b))
     = combine H cur e b.
Proof.
  unfold MerkleProof.level_constraints, MerkleProof.level_witness.
  cbn [MerkleProof.s MerkleProof.left MerkleProof.right MerkleProof.hash].
  split.
  - split_checks; try reflexivity. apply F_bit. destruct b; [right | left]; reflexivity.
  - destruct b; unfold combine, bit_to_F; f_equal; ring.
Qed.

Lemma chain_constraints_sound (pe : list F) :
  forall (cur : F) (pi : list F) (ls : list MerkleProof.level),
  MerkleProof.chain_constraints H cur pe pi ls = true ->
  Attestation.path_root H cur pe pi
  = Some (last (map MerkleProof.hash ls) cur).
Proof.
  induction pe as [| e pe IH]; intros cur pi ls Hc.
  - destruct pi, ls; try discriminate. reflexivity.
  - destruct pi as [| i pi], ls as [| l ls]; try discriminate.
    cbn [MerkleProof.chain_constraints] in Hc.
    apply andb_true_iff in Hc. destruct Hc as [Hl Hrest].
    destruct (level_constraints_sound _ _ _ _ Hl) as (b & Hb & Hh).
    cbn [Attestation.path_root]. rewrite Hb, <- Hh, (IH _ _ _ Hrest).
    f_equal. cbn [map]. symmetry. apply last_cons_default.
Qed.

Lemma chain_witness_ok (pe : list F) :
  forall (cur r : F) (pi : list F),
  length pi = length pe ->
  Attestation.path_root H cur pe pi = Some r ->
  MerkleProof.chain_constraints H cur pe pi (MerkleProof.chain_witness H cur pe pi) = true
  /\ last (map MerkleProof.hash (MerkleProof.chain_witness H cur pe pi)) cur = r
  /\ length (MerkleProof.chain_witness H cur pe pi) = length pe.
Proof.
  induction pe as [| e pe IH]; intros cur r pi Hlen Hr.
  - destruct pi; [| discriminate]. cbn in Hr. injection Hr as <-.
    repeat split.
  - destruct pi as [| i pi]; [discriminate |].
    cbn [Attestation.path_root] in Hr.
    destruct (Attestation.side i) as [b |] eqn:Hs; [| discriminate].
    apply side_Some in Hs. subst i.
    destruct (level_witness_ok cur e b) as [Hl Hh].
    rewrite <- Hh in Hr.
    destruct (IH _ _ pi ltac:(simpl in Hlen; lia) Hr) as (Hc & Hlast & Hn).
    cbn [MerkleProof.chain_witness MerkleProof.chain_constraints map length].
    rewrite Hl, Hc, Hn. repeat split.
    rewrite <- Hlast. apply last_cons_default.
Qed.

Lemma MerkleProof_sound (n : nat) (m : MerkleProof.signals) :
  MerkleProof.constraints H n m = true ->
  Attestation.path_root H (MerkleProof.leaf m) (MerkleProof.pathElements m)
    (MerkleProof.pathIndices m) = Some (MerkleProof.root m).
Proof.
  unfold MerkleProof.constraints. rewrite !andb_true_iff, Zmod.eqb_eq.
  intros [[_ Hchain] Hroot].
  rewrite (chain_constraints_sound _ _ _ _ Hchain), Hroot. reflexivity.
Qed.

Lemma MerkleProof_witness_ok (n : nat) (x r : F) (pe pi : list F) :
  length pe = n -> length pi = n ->
  Attestation.path_root H x pe pi = Some r ->
  MerkleProof.constraints H n (MerkleProof.witness H x pe pi) = true
  /\ MerkleProof.root (MerkleProof.witness H x pe pi) = r.
Proof.
  intros Hpe Hpi Hr.
  destruct (chain_witness_ok pe x r pi ltac:(congruence) Hr) as (Hc & Hlast & Hn).
  unfold MerkleProof.constraints, MerkleProof.shape, MerkleProof.witness.
  cbn [MerkleProof.leaf MerkleProof.pathElements MerkleProof.pathIndices
       MerkleProof.selectors MerkleProof.root].
  split; [| exact Hlast].
  split_checks; first [assumption | congruence | reflexivity].
Qed.
End MerkleProofFacts.

(** ** The attestation circuit *)

Lemma wiring_sound (n : nat) (a a' b b' : list F) :
  length a = n -> length a' = n -> length b = n -> length b' = n ->
  forallb
    (fun i => Zmod.eqb (nth i a Zmod.zero) (nth i a' Zmod.zero)
              && Zmod.eqb (nth i b Zmod.zero) (nth i b' Zmod.zero))
    (seq 0 n) = true ->
  a = a' /\ b = b'.
Proof.
  intros Ha Ha' Hb Hb' Hw. rewrite forallb_forall in Hw.
  split; apply (nth_ext _ _ Zmod.zero Zmod.zero); try congruence;
    intros i Hi; specialize (Hw i); rewrite in_seq in Hw;
    specialize (Hw ltac:(lia)); apply andb_true_iff in Hw;
    destruct Hw as [Ea Eb]; apply Zmod.eqb_eq; assumption.
Qed.

Lemma wiring_refl (n : nat) (a b : list F) :
  forallb
    (fun i => Zmod.eqb (nth i a Zmod.zero) (nth i a Zmod.zero)
              && Zmod.eqb (nth i b Zmod.zero) (nth i b Zmod.zero))
    (seq 0 n) = true.
Proof.
  apply forallb_forall. intros i _. rewrite !Zmod.eqb_refl. reflexivity.
Qed.

Section AttestationFacts.
Variable H : F -> F -> F.

Lemma inclusion_sound (n : nat) (a : Attestation.signals) :
  Attestation.shape n (Attestation.private a) = true ->
  Attestation.inclusion H n a = true ->
  Attestation.path_root H
    (Attestation.leaf (Attestation.private a))
    (Attestation.pathElements (Attestation.private a))
    (Attestation.pathIndices (Attestation.private a))
  = Some (Attestation.root (Attestation.public a)).
Proof.
  unfold Attestation.shape, Attestation.inclusion.
  rewrite !andb_true_iff, !Nat.eqb_eq, !Zmod.eqb_eq.
  intros [Hpe Hpi] [[[Hmp Hleaf] Hwire] Hroot].
  pose proof (MerkleProof_sound H n _ Hmp) as Hr.
  unfold MerkleProof.constraints, MerkleProof.shape in Hmp.
  rewrite !andb_true_iff, !Nat.eqb_eq in Hmp.
  destruct Hmp as [[[[Hpe' Hpi'] _] _] _].
  destruct (wiring_sound n _ _ _ _ Hpe' Hpe Hpi' Hpi Hwire) as [E1 E2].
  rewrite <- E1, <- E2, <- Hleaf, <- Hroot. exact Hr.
Qed.

Lemma assign_inclusion (n : nat) (pub : Attestation.public_inputs)
    (priv : Attestation.private_inputs) :
  Attestation.shape n priv = true ->
  Attestation.path_root H (Attestation.leaf priv) (Attestation.pathElements priv)
    (Attestation.pathIndices priv) = Some (Attestation.root pub) ->
  Attestation.inclusion H n (Attestation.assign H pub priv) = true.
Proof.
  unfold Attestation.shape. rewrite andb_true_iff, !Nat.eqb_eq.
  intros [Hpe Hpi] Hr.
  destruct (MerkleProof_witness_ok H n _ _ _ _ Hpe Hpi Hr) as [Hc Hroot].
  unfold Attestation.inclusion, Attestation.assign.
  cbn [Attestation.public Attestation.private Attestation.merkleProof].
  rewrite Hc, Hroot, Zmod.eqb_refl.
  cbn [MerkleProof.witness MerkleProof.pathElements MerkleProof.pathIndices
       MerkleProof.leaf].
  rewrite wiring_refl, Zmod.eqb_refl. reflexivity.
Qed.

Lemma inequality_sound (a : Attestation.signals) :
  Attestation.inequality a = true ->
  Attestation.leaf (Attestation.private a)
  <> Attestation.knownBadLeafHash (Attestation.public a).
Proof.
  unfold Attestation.inequality. rewrite !andb_true_iff, !Zmod.eqb_eq.
  intros [[[Hc Hin0] Hin1] Hzero].
  pose proof (IsEqual_out _ Hc) as Hout.
  rewrite Hzero, Hin0, Hin1 in Hout. intros E. rewrite E, Zmod.eqb_refl in Hout.
  symmetry in Hout. exact (F_one_neq_zero Hout).
Qed.

Lemma assign_inequality (pub : Attestation.public_inputs)
    (priv : Attestation.private_inputs) :
  Attestation.leaf priv <> Attestation.knownBadLeafHash pub ->
  Attestation.inequality (Attestation.assign H pub priv) = true.
Proof.
  intros Hne. unfold Attestation.inequality, Attestation.assign.
  cbn [Attestation.public Attestation.private Attestation.isNotBad].
  rewrite IsEqual_witness_ok.
  rewrite (IsEqual_out _ (IsEqual_witness_ok _ _)).
  cbn [IsEqual.witness IsEqual.in0 IsEqual.in1].
  rewrite !Zmod.eqb_refl.
  destruct (Zmod.eqb_spec (Attestation.leaf priv) (Attestation.knownBadLeafHash pub));
    [contradiction | reflexivity].
Qed.

Lemma inclusion_satisfied_iff (n : nat) (pub : Attestation.public_inputs)
    (priv : Attestation.private_inputs) :
  Attestation.inclusion_satisfied H n pub priv <->
  Attestation.shape n priv = true
  /\ Attestation.path_root H (Attestation.leaf priv)
       (Attestation.pathElements priv) (Attestation.pathIndices priv)
     = Some (Attestation.root pub).
Proof.
  split.
  - intros (a & [<- <-] & Hs & Hi). split; [exact Hs |].
    apply (inclusion_sound n a Hs Hi).
  - intros [Hs Hr]. exists (Attestation.assign H pub priv).
    split; [split; reflexivity |]. split; [exact Hs |].
    apply assign_inclusion; assumption.
Qed.

Lemma inequality_satisfied_iff (pub : Attestation.public_inputs)
    (priv : Attestation.private_inputs) :
  Attestation.inequality_satisfied pub priv <->
  Attestation.leaf priv <> Attestation.knownBadLeafHash pub.
Proof.
  split.
  - intros (a & [<- <-] & Hi). apply inequality_sound. exact Hi.
  - intros Hne. exists (Attestation.assign H pub priv).
    split; [split; reflexivity |]. apply assign_inequality. exact Hne.
Qed.

Lemma satisfiable_iff (n : nat) (pub : Attestation.public_inputs)
    (priv : Attestation.private_inputs) :
  Attestation.satisfiable H n pub priv <->
  Attestation.shape n priv = true
  /\ Attestation.path_root H (Attestation.leaf priv)
       (Attestation.pathElements priv) (Attestation.pathIndices priv)
     = Some (Attestation.root pub)
  /\ Attestation.leaf priv <> Attestation.knownBadLeafHash pub.
Proof.
  split.
  - intros (a & [<- <-] & Hc). unfold Attestation.constraints in Hc.
    rewrite !andb_true_iff in Hc. destruct Hc as [[Hs Hi] Hne].
    repeat split; [assumption | apply (inclusion_sound n a); assumption
                  | apply inequality_sound; assumption].
  - intros (Hs & Hr & Hne). exists (Attestation.assign H pub priv).
    split; [split; reflexivity |]. unfold Attestation.constraints.
    cbn [Attestation.assign Attestation.private].
    rewrite Hs, (assign_inclusion n pub priv Hs Hr), (assign_inequality pub priv Hne).
    reflexivity.
Qed.

(** The witness computation succeeds exactly on the satisfiable inputs. *)
Lemma witness_complete (n : nat) (pub : Attestation.public_inputs)
    (priv : Attestation.private_inputs) :
  Attestation.satisfiable H n pub priv <->
  Attestation.witness H n pub priv = Some (Attestation.assign H pub priv).
Proof.
  unfold Attestation.witness. split.
  - intros Hsat. apply satisfiable_iff in Hsat. destruct Hsat as (Hs & Hr & Hne).
    unfold Attestation.constraints.
    cbn [Attestation.assign Attestation.private].
    rewrite Hs, (assign_inclusion n pub priv Hs Hr), (assign_inequality pub priv Hne).
    reflexivity.
  - destruct (Attestation.constraints H n (Attestation.assign H pub priv)) eqn:Hc;
      [| discriminate].
    intros _. exists (Attestation.assign H pub priv).
    split; [split; reflexivity | exact Hc].
Qed.

Lemma witness_None (n : nat) (pub : Attestation.public_inputs)
    (priv : Attestation.private_inputs) :
  ~ Attestation.satisfiable H n pub priv <->
  Attestation.witness H n pub priv = None.
Proof.
  rewrite witness_complete. unfold Attestation.witness.
  destruct (Attestation.constraints H n (Attestation.assign H pub priv));
    split; intros E; congruence.
Qed.
End AttestationFacts.

(** ** The Merkle tree builder *)

Section BuilderFacts.
Import MerkleTreeBuilder.
Context {A : Type} (H : A -> A -> A) (zero_leaf : A).
Local Open Scope nat_scope.

Lemma length_pad (leaves : list A) :
  length leaves <= 2 ^ L -> length (pad zero_leaf leaves) = 2 ^ L.
Proof.
  intros Hle. unfold pad. rewrite length_app, repeat_length. lia.
Qed.

Lemma nth_pad (leaves : list A) (i : nat) :
  i < length leaves -> nth i (pad zero_leaf leaves) zero_leaf = nth i leaves zero_leaf.
Proof. intros Hi. unfold pad. apply app_nth1. exact Hi. Qed.

Lemma length_pair_up (k : nat) :
  forall l : list A, length l = 2 * k -> length (pair_up H l) = k.
Proof.
  induction k as [| k IH]; intros l Hl.
  - destruct l; [reflexivity | discriminate].
  - destruct l as [| a [| b r]]; simpl in Hl; try lia.
    cbn [pair_up length]. rewrite IH; [reflexivity | lia].
Qed.

Lemma nth_pair_up (d : A) (j : nat) :
  forall l : list A,
  2 * j + 1 < length l ->
  nth j (pair_up H l) d = H (nth (2 * j) l d) (nth (2 * j + 1) l d).
Proof.
  induction j as [| j IH]; intros l Hl;
    destruct l as [| a [| b r]]; simpl in Hl; try lia.
  - reflexivity.
  - replace (2 * S j) with (S (S (2 * j))) by lia.
    cbn [pair_up nth Nat.add]. apply IH. lia.
Qed.

Lemma sibling_pair (d : A) (l : list A) (i : nat) :
  i < length l -> Nat.even (length l) = true ->
  combine H (nth i l d) (nth (sibling i) l d) (Nat.odd i)
  = nth (Nat.div2 i) (pair_up H l) d.
Proof.
  intros Hi Hev.
  pose proof (Nat.div2_odd i) as Ei.
  apply Nat.even_spec in Hev. destruct Hev as [k Hk].
  unfold combine, sibling.
  destruct (Nat.odd i); cbn [Nat.b2n] in Ei.
  - rewrite nth_pair_up by lia.
    replace (i - 1) with (2 * Nat.div2 i) by lia.
    replace (2 * Nat.div2 i + 1) with i by lia. reflexivity.
  - rewrite nth_pair_up by lia.
    replace (2 * Nat.div2 i) with i by lia. reflexivity.
Qed.

Lemma path_from_step (l x : list A) (rest : list (list A)) (i : nat) :
  path_from zero_leaf (l :: x :: rest) i
  = (nth (sibling i) l zero_leaf
       :: fst (path_from zero_leaf (x :: rest) (Nat.div2 i)),
     Nat.odd i :: snd (path_from zero_leaf (x :: rest) (Nat.div2 i))).
Proof.
  change (path_from zero_leaf (l :: x :: rest) i)
    with (let (es, bs) := path_from zero_leaf (x :: rest) (Nat.div2 i) in
          (nth (sibling i) l zero_leaf :: es, Nat.odd i :: bs)).
  destruct (path_from zero_leaf (x :: rest) (Nat.div2 i)). reflexivity.
Qed.

Lemma path_from_cons (n : nat) (l l' : list A) (i : nat) :
  path_from zero_leaf (l :: levels_from H n l') i
  = (nth (sibling i) l zero_leaf
       :: fst (path_from zero_leaf (levels_from H n l') (Nat.div2 i)),
     Nat.odd i :: snd (path_from zero_leaf (levels_from H n l') (Nat.div2 i))).
Proof. destruct n; cbn [levels_from]; apply path_from_step. Qed.

Lemma last_levels_from (n : nat) (l l' : list A) :
  last (l :: levels_from H n l') [] = last (levels_from H n l') [].
Proof. destruct n; reflexivity. Qed.

(** Replaying the path of node [i] from its value reaches the root. *)
Lemma climb_path_from (n : nat) :
  forall (l : list A) (i : nat),
  length l = 2 ^ n -> i < 2 ^ n ->
  climb H (nth i l zero_leaf)
    (fst (path_from zero_leaf (levels_from H n l) i))
    (snd (path_from zero_leaf (levels_from H n l) i))
  = hd zero_leaf (last (levels_from H n l) []).
Proof.
  induction n as [| n IH]; intros l i Hl Hi.
  - cbn in Hi. assert (i = 0) as -> by lia.
    destruct l; reflexivity.
  - cbn [levels_from]. rewrite path_from_cons, last_levels_from.
    cbn [fst snd climb].
    assert (Hpow : 2 ^ S n = 2 * 2 ^ n) by (cbn; lia).
    rewrite sibling_pair.
    + apply IH.
      * apply length_pair_up. lia.
      * pose proof (Nat.div2_odd i). destruct (Nat.odd i); cbn [Nat.b2n] in *; lia.
    + lia.
    + rewrite Hl, Hpow. apply Nat.even_spec. exists (2 ^ n). reflexivity.
Qed.

Lemma length_path_from (n : nat) :
  forall (l : list A) (i : nat),
  length (fst (path_from zero_leaf (levels_from H n l) i)) = n
  /\ length (snd (path_from zero_leaf (levels_from H n l) i)) = n.
Proof.
  induction n as [| n IH]; intros l i.
  - split; reflexivity.
  - cbn [levels_from]. rewrite path_from_cons. cbn [fst snd length].
    destruct (IH (pair_up H l) (Nat.div2 i)) as [-> ->]. split; reflexivity.
Qed.

Lemma pathFor_build (leaves : list A) (i : nat) :
  i < length leaves ->
  pathFor zero_leaf (snd (build H zero_leaf leaves)) i
  = Ok {| pathElements :=
            fst (path_from zero_leaf (levels_from H L (pad zero_leaf leaves)) i);
          pathIndices :=
            snd (path_from zero_leaf (levels_from H L (pad zero_leaf leaves)) i) |}.
Proof.
  intros Hi. unfold pathFor, build. cbn [snd leaf_count nodes].
  destruct (Nat.ltb_spec i (length leaves)) as [_ | Hge]; [| lia].
  destruct (path_from zero_leaf _ i). reflexivity.
Qed.

Lemma pathFor_invalid (leaves : list A) (i : nat) :
  length leaves <= i ->
  pathFor zero_leaf (snd (build H zero_leaf leaves)) i = Err InvalidIndex.
Proof.
  intros Hi. unfold pathFor, build. cbn [snd leaf_count nodes].
  destruct (Nat.ltb_spec i (length leaves)) as [Hlt | _]; [lia | reflexivity].
Qed.

(** The inclusion round trip. *)
Lemma round_trip_ex (leaves : list A) (i : nat) :
  length leaves <= 2 ^ L -> i < length leaves ->
  exists p,
    pathFor zero_leaf (snd (build H zero_leaf leaves)) i = Ok p
    /\ recompute H (nth i leaves zero_leaf) p = fst (build H zero_leaf leaves)
    /\ length (pathElements p) = L /\ length (pathIndices p) = L.
Proof.
  intros Hle Hi. eexists. split; [apply pathFor_build; exact Hi |].
  unfold recompute. cbn [pathElements pathIndices].
  split; [| apply length_path_from].
  rewrite <- (nth_pad leaves i Hi).
  rewrite climb_path_from; [reflexivity | apply length_pad; exact Hle | lia].
Qed.

Lemma round_trip (leaves : list A) (i : nat) (p : Path A) :
  length leaves <= 2 ^ L -> i < length leaves ->
  pathFor zero_leaf (snd (build H zero_leaf leaves)) i = Ok p ->
  recompute H (nth i leaves zero_leaf) p = fst (build H zero_leaf leaves)
  /\ length (pathElements p) = L /\ length (pathIndices p) = L.
Proof.
  intros Hle Hi Hp.
  destruct (round_trip_ex leaves i Hle Hi) as (p' & Hp' & Hrt).
  assert (p = p') as -> by congruence. exact Hrt.
Qed.

Lemma combine_inj (Hcf : collision_free H) (x y e : A) (b : bool) :
  combine H x e b = combine H y e b -> x = y.
Proof.
  unfold combine. destruct b; intros E; apply Hcf in E; tauto.
Qed.

Lemma climb_inj (Hcf : collision_free H) (es : list A) :
  forall (bs : list bool) (x y : A),
  climb H x es bs = climb H y es bs -> x = y.
Proof.
  induction es as [| e es IH]; intros bs x y E; [exact E |].
  destruct bs as [| b bs]; [exact E |].
  cbn [climb] in E. apply IH in E. exact (combine_inj Hcf _ _ _ _ E).
Qed.

End BuilderFacts.

Lemma path_root_bits (H : F -> F -> F) (es : list F) :
  forall (bs : list bool) (x : F),
  Attestation.path_root H x es (map bit_to_F bs) = Some (climb H x es bs).
Proof.
  induction es as [| e es IH]; intros bs x; [reflexivity |].
  destruct bs as [| b bs]; [reflexivity |].
  cbn [map Attestation.path_root climb]. rewrite side_bit. apply IH.
Qed.

(** ** The registry *)

Section RegistryFacts.
Import Registry.
Context {ProofComponents VerificationKey : Type}.
Variable well_formed : ProofComponents -> bool.
Variable verify : VerificationKey -> ProofComponents -> list F -> bool.

Local Abbreviation state := (@state ProofComponents VerificationKey).
Local Abbreviation slot := (@SubmitterState ProofComponents).

Lemma submit_Ok (c : address) (n : Z) (prf : ProofComponents)
    (sig : list F) (st st' : state) :
  submitAttestation well_formed verify c n prf sig st = Ok st' ->
  exists r kb,
    sig = [r; kb]
    /\ is_Some (slots st !! c)
    /\ well_formed prf = true
    /\ verify (vk st) prf sig = true
    /\ st' = set_slots st
               (<[c := Attested {| root := r; proof := prf; publicSignals := sig;
                                   submitter := c; timestamp := n;
                                   valid := true |}]> (slots st)).
Proof.
  unfold submitAttestation.
  destruct (slots st !! c) as [s |] eqn:Hc; [| discriminate].
  destruct (well_formed prf) eqn:Hwf; [| discriminate]. cbn [negb].
  destruct sig as [| r [| kb [| x sig]]]; try discriminate.
  destruct (verify (vk st) prf [r; kb]) eqn:Hv; [| discriminate].
  intros [= <-]. exists r, kb. repeat split; eauto.
Qed.






Lemma slot_owner_empty : slot_owner (∅ : gmap address slot).
Proof. intros k a Hk. rewrite lookup_empty in Hk. discriminate. Qed.

Lemma slot_owner_register (m : gmap address slot) (id : address) :
  slot_owner m -> slot_owner (<[id := Registered]> m).
Proof.
  intros Hm k a Hk. destruct (decide (id = k)) as [-> | Hne].
  - rewrite lookup_insert_eq in Hk. discriminate.
  - rewrite lookup_insert_ne in Hk by exact Hne. exact (Hm k a Hk).
Qed.

Lemma slot_owner_attest (m : gmap address slot) (c : address)
    (a : Attestation) :
  submitter a = c -> slot_owner m -> slot_owner (<[c := Attested a]> m).
Proof.
  intros Ha Hm k a' Hk. destruct (decide (c = k)) as [-> | Hne].
  - rewrite lookup_insert_eq in Hk. injection Hk as <-. exact Ha.
  - rewrite lookup_insert_ne in Hk by exact Hne. exact (Hm k a' Hk).
Qed.

Lemma slot_owner_execute (t : transaction) (st : state) :
  slot_owner (slots st) ->
  slot_owner (slots (fst (execute well_formed verify t st))).
Proof.
  intros Hst. unfold execute. destruct (payload t) as [id | prf sig].
  - unfold registerSubmitter.
    destruct (Z.eqb (caller t) (admin st)); [| exact Hst].
    destruct (slots st !! id); [exact Hst |].
    apply slot_owner_register. exact Hst.
  - destruct (submitAttestation well_formed verify (caller t) (now t) prf sig st)
      as [st' | e] eqn:Hs; [| exact Hst].
    apply submit_Ok in Hs. destruct Hs as (r & kb & _ & _ & _ & _ & ->).
    apply slot_owner_attest; [reflexivity | exact Hst].
Qed.

Lemma slot_owner_run (ts : list transaction) :
  forall st : state,
  slot_owner (slots st) -> slot_owner (slots (run well_formed verify ts st)).
Proof.
  induction ts as [| t ts IH]; intros st Hst; [exact Hst |].
  apply IH, slot_owner_execute, Hst.
Qed.

Lemma slot_owner_reachable (st : state) :
  reachable well_formed verify st -> slot_owner (slots st).
Proof.
  intros (a & k & ts & ->). apply slot_owner_run, slot_owner_empty.
Qed.

(** Under that invariant the attestations stored for a submitter are the
    content of that submitter's slot. *)
Lemma attestations_of_slot (id : address) (m : gmap address slot) :
  slot_owner m ->
  base.filter (fun a : Attestation => submitter a = id)
    (omap (fun kv : address * slot =>
             match snd kv with Attested a => Some a | Registered => None end)
          (map_to_list m))
  = match m !! id with
    | Some (Attested a) => [a]
    | _ => []
    end.
Proof.
  induction m as [| k v m Hk IH] using map_ind; intros Hown.
  - rewrite map_to_list_empty, lookup_empty. reflexivity.
  - assert (Hown' : slot_owner m).
    { intros k' a' Hk'. apply Hown. rewrite lookup_insert_ne; [exact Hk' |].
      intros ->. congruence. }
    specialize (IH Hown').
    assert (Hperm :
      base.filter (fun a : Attestation => submitter a = id)
        (omap (fun kv : address * slot =>
                 match snd kv with Attested a => Some a | Registered => None end)
              (map_to_list (<[k := v]> m)))
      ≡ₚ base.filter (fun a : Attestation => submitter a = id)
           (omap (fun kv : address * slot =>
                    match snd kv with Attested a => Some a | Registered => None end)
                 ((k, v) :: map_to_list m))).
    { rewrite (map_to_list_insert m k v Hk). reflexivity. }
    cbn [omap list_omap snd] in Hperm.
    destruct (decide (k = id)) as [-> | Hne].
    + rewrite lookup_insert_eq. rewrite Hk in IH.
      destruct v as [| a].
      * rewrite IH in Hperm. apply Permutation_nil_r in Hperm. exact Hperm.
      * rewrite filter_cons_True in Hperm
          by (apply Hown; apply lookup_insert_eq).
        rewrite IH in Hperm. apply Permutation_singleton_r in Hperm. exact Hperm.
    + rewrite lookup_insert_ne by exact Hne.
      destruct v as [| a].
      * rewrite IH in Hperm.
        destruct (m !! id) as [[| a'] |];
          [apply Permutation_nil_r | apply Permutation_singleton_r
          | apply Permutation_nil_r]; exact Hperm.
      * rewrite filter_cons_False in Hperm.
        2:{ rewrite (Hown k a (lookup_insert_eq m k _)). exact Hne. }
        rewrite IH in Hperm.
        destruct (m !! id) as [[| a'] |];
          [apply Permutation_nil_r | apply Permutation_singleton_r
          | apply Permutation_nil_r]; exact Hperm.
Qed.

Lemma attestations_of_reachable (id : address) (st : state) :
  slot_owner (slots st) ->
  attestations_of id st
  = match getLatestValidAttestation id st with Some a => [a] | None => [] end.
Proof.
  intros Hown. unfold attestations_of, stored, getLatestValidAttestation.
  rewrite (attestations_of_slot id (slots st) Hown).
  destruct (slots st !! id) as [[| a] |]; reflexivity.
Qed.
End RegistryFacts.

(** ** Consequences for the circuit, the generator and the samples *)

Lemma shape_lengths (n : nat) (priv : Attestation.private_inputs) :
  length (Attestation.pathElements priv) = n ->
  length (Attestation.pathIndices priv) = n ->
  Attestation.shape n priv = true.
Proof.
  intros Hpe Hpi. unfold Attestation.shape.
  rewrite Hpe, Hpi, Nat.eqb_refl. reflexivity.
Qed.

Lemma side_cases (idx : F) :
  Attestation.side idx <> None -> idx = Zmod.zero \/ idx = Zmod.one.
Proof.
  unfold Attestation.side.
  destruct (Zmod.eqb_spec idx Zmod.zero) as [E0 | _]; [left; exact E0 |].
  destruct (Zmod.eqb_spec idx Zmod.one) as [E1 | _]; [right; exact E1 |].
  intros Hn. contradiction.
Qed.

Lemma path_root_indices (H : F -> F -> F) (pe : list F) :
  forall (pi : list F) (cur r : F) (k : nat),
  Attestation.path_root H cur pe pi = Some r ->
  (k < length pe)%nat -> (k < length pi)%nat ->
  nth k pi Zmod.zero = Zmod.zero \/ nth k pi Zmod.zero = Zmod.one.
Proof.
  induction pe as [| e pe IH]; intros pi cur r k Hr Hpe Hpi;
    [cbn in Hpe; lia |].
  destruct pi as [| i pi]; [cbn in Hpi; lia |].
  cbn [Attestation.path_root] in Hr.
  destruct (Attestation.side i) as [b |] eqn:Hs; [| discriminate].
  destruct k as [| k].
  - cbn [nth]. apply side_cases. congruence.
  - cbn [nth]. cbn [length] in Hpe, Hpi.
    apply (IH pi _ r k Hr); lia.
Qed.

Lemma generate_succeeds {ProvingKey Proof : Type}
    (prove : ProvingKey -> Attestation.signals -> Proof) (H : F -> F -> F)
    (pk : ProvingKey) (pub : Attestation.public_inputs)
    (priv : Attestation.private_inputs) :
  Attestation.satisfiable H Attestation.levels pub priv ->
  ProofGenerator.generate prove H pk pub priv
  = Ok (prove pk (Attestation.assign H pub priv),
        [Attestation.root pub; Attestation.knownBadLeafHash pub]).
Proof.
  intros Hsat. apply witness_complete in Hsat.
  unfold ProofGenerator.generate. rewrite Hsat. reflexivity.
Qed.

Lemma generate_fails {ProvingKey Proof : Type}
    (prove : ProvingKey -> Attestation.signals -> Proof) (H : F -> F -> F)
    (pk : ProvingKey) (pub : Attestation.public_inputs)
    (priv : Attestation.private_inputs) :
  ~ Attestation.satisfiable H Attestation.levels pub priv ->
  ProofGenerator.generate prove H pk pub priv
  = Err ProofGenerator.UnsatisfiableWitness.
Proof.
  intros Hunsat. apply witness_None in Hunsat.
  unfold ProofGenerator.generate. rewrite Hunsat. reflexivity.
Qed.


Lemma F_of_Z_neq (a b : Z) :
  (a mod bn128_r =? b mod bn128_r) = false ->
  Zmod.of_Z bn128_r a <> Zmod.of_Z bn128_r b.
Proof.
  intros Hab E. apply Zmod.of_Z_inj in E. apply Z.eqb_neq in Hab. contradiction.
Qed.

Lemma example_satisfiable :
  Attestation.satisfiable Sample.hashF Attestation.levels
    Sample.pubF Sample.privF.
Proof.
  exists (Attestation.assign Sample.hashF Sample.pubF Sample.privF).
  split; [split; reflexivity |]. vm_compute. reflexivity.
Defined.

Lemma registry1_reachable :
  Registry.reachable Sample.accept_encoding Sample.accept_proof
    Sample.registry1.
Proof. exists 1, 7, [Sample.register2]. reflexivity. Defined.

Lemma pairN_collision_free : MerkleTreeBuilder.collision_free Sample.pairN.
Proof.
  intros a b c d E. unfold Sample.pairN in E.
  assert (Hs : (a + b = c + d)%N) by nia.
  split; nia.
Qed.

(** ** The definitions at work *)

Example build_pads_to_capacity :
  map N.to_nat
    (hd [] (MerkleTreeBuilder.nodes
              (snd (MerkleTreeBuilder.build Sample.pairN 0%N Sample.leavesN))))
  = [3; 1; 4; 1; 5; 0; 0; 0; 0; 0; 0; 0; 0; 0; 0; 0]%nat.
Proof. reflexivity. Qed.

Example pathFor_bits :
  MerkleTreeBuilder.pathIndices Sample.pathF = [false; true; false; false].
Proof. reflexivity. Qed.

Example pathFor_out_of_range :
  MerkleTreeBuilder.pathFor Zmod.zero (snd Sample.treeF) 5
  = Err MerkleTreeBuilder.InvalidIndex.
Proof. reflexivity. Qed.

Example recompute_reaches_root :
  MerkleTreeBuilder.recompute Sample.hashF (Zmod.of_Z bn128_r 33) Sample.pathF
  = fst Sample.treeF.
Proof. vm_compute. reflexivity. Qed.

Example witness_computed :
  Attestation.witness Sample.hashF 4 Sample.pubF Sample.privF
  = Some (Attestation.assign Sample.hashF Sample.pubF Sample.privF).
Proof. vm_compute. reflexivity. Qed.

Example witness_aborts_on_bad_leaf :
  Attestation.witness Sample.hashF 4 Sample.pubF Sample.privBad = None.
Proof. vm_compute. reflexivity. Qed.

Example witness_aborts_on_non_bit :
  Attestation.witness Sample.hashF 4 Sample.pubF Sample.privNonBit = None.
Proof. vm_compute. reflexivity. Qed.

Example registry_keeps_second :
  option_map Registry.timestamp
    (Registry.getLatestValidAttestation 2 Sample.registry3) = Some 30.
Proof. reflexivity. Qed.

(* ===================================================================== *)
(** * Part III: the claims *)
(* ===================================================================== *)

(** ** Circuit claims *)

(** C1: for every assignment of the inputs of [Attestation(4)], the
    inclusion constraints are satisfied exactly when combining [leaf] with
    each [pathElements[k]], the side of the running value being named by
    [pathIndices[k]] (0 left, 1 right), yields [root]. *)
Theorem C1_inclusion_constraints (H : F -> F -> F)
    (pub : Attestation.public_inputs) (priv : Attestation.private_inputs) :
  length (Attestation.pathElements priv) = 4%nat ->
  length (Attestation.pathIndices priv) = 4%nat ->
  Attestation.inclusion_satisfied H Attestation.levels pub priv <->
  Attestation.path_root H (Attestation.leaf priv)
    (Attestation.pathElements priv) (Attestation.pathIndices priv)
  = Some (Attestation.root pub).
Proof.
  intros Hpe Hpi. rewrite inclusion_satisfied_iff.
  split; [intros [_ Hr]; exact Hr |].
  intros Hr. split; [apply shape_lengths; assumption | exact Hr].
Qed.

Lemma C1_witness :
  length (Attestation.pathElements Sample.privF) = 4%nat
  /\ length (Attestation.pathIndices Sample.privF) = 4%nat
  /\ (Attestation.inclusion_satisfied Sample.hashF Attestation.levels
        Sample.pubF Sample.privF <->
      Attestation.path_root Sample.hashF (Attestation.leaf Sample.privF)
        (Attestation.pathElements Sample.privF)
        (Attestation.pathIndices Sample.privF)
      = Some (Attestation.root Sample.pubF)).
Proof.
  assert (Hpe : length (Attestation.pathElements Sample.privF) = 4%nat)
    by (vm_compute; reflexivity).
  assert (Hpi : length (Attestation.pathIndices Sample.privF) = 4%nat)
    by (vm_compute; reflexivity).
  exact (conj Hpe (conj Hpi
    (C1_inclusion_constraints Sample.hashF Sample.pubF Sample.privF Hpe Hpi))).
Defined.

(** C2: when [leaf] equals [knownBadLeafHash] the inequality constraint,
    hence the constraint system of [Attestation(4)], has no satisfying
    assignment whatever the path inputs, and [generate] fails with
    [UnsatisfiableWitness]; when they differ the inequality constraint is
    satisfied. *)
Theorem C2_inequality_constraint {ProvingKey Proof : Type}
    (prove : ProvingKey -> Attestation.signals -> Proof) (H : F -> F -> F)
    (pk : ProvingKey) (pub : Attestation.public_inputs)
    (priv : Attestation.private_inputs) :
  (Attestation.leaf priv = Attestation.knownBadLeafHash pub ->
     ~ Attestation.inequality_satisfied pub priv
     /\ ~ Attestation.satisfiable H Attestation.levels pub priv
     /\ ProofGenerator.generate prove H pk pub priv
        = Err ProofGenerator.UnsatisfiableWitness)
  /\ (Attestation.leaf priv <> Attestation.knownBadLeafHash pub ->
      Attestation.inequality_satisfied pub priv).
Proof.
  split.
  - intros Heq.
    assert (Hunsat : ~ Attestation.satisfiable H Attestation.levels pub priv).
    { intros Hsat. apply satisfiable_iff in Hsat. tauto. }
    repeat split.
    + intros Hi. apply (inequality_satisfied_iff H) in Hi. contradiction.
    + exact Hunsat.
    + apply generate_fails. exact Hunsat.
  - intros Hne. apply (inequality_satisfied_iff H). exact Hne.
Qed.

Lemma C2_witness :
  (~ Attestation.satisfiable Sample.hashF Attestation.levels
       Sample.pubF Sample.privBad
   /\ ProofGenerator.generate (fun (_ : unit) (_ : Attestation.signals) => tt)
        Sample.hashF tt Sample.pubF Sample.privBad
      = Err ProofGenerator.UnsatisfiableWitness)
  /\ Attestation.inequality_satisfied Sample.pubF Sample.privF.
Proof.
  pose proof (C2_inequality_constraint
                (fun (_ : unit) (_ : Attestation.signals) => tt)
                Sample.hashF tt Sample.pubF Sample.privBad) as [Hbad _].
  pose proof (C2_inequality_constraint
                (fun (_ : unit) (_ : Attestation.signals) => tt)
                Sample.hashF tt Sample.pubF Sample.privF) as [_ Hgood].
  split.
  - specialize (Hbad eq_refl). tauto.
  - apply Hgood. apply (F_of_Z_neq 33 22). vm_compute. reflexivity.
Defined.

(** C3: in every satisfying assignment of [Attestation(4)] each
    [pathIndices[k]], k = 0..3, is 0 or 1; an assignment that gives some
    [pathIndices[k]] another value is unsatisfiable. *)
Theorem C3_path_indices_are_bits (H : F -> F -> F)
    (pub : Attestation.public_inputs) (priv : Attestation.private_inputs)
    (k : nat) :
  (k < 4)%nat ->
  (Attestation.satisfiable H Attestation.levels pub priv ->
     nth k (Attestation.pathIndices priv) Zmod.zero = Zmod.zero
     \/ nth k (Attestation.pathIndices priv) Zmod.zero = Zmod.one)
  /\ (nth k (Attestation.pathIndices priv) Zmod.zero <> Zmod.zero ->
      nth k (Attestation.pathIndices priv) Zmod.zero <> Zmod.one ->
      ~ Attestation.satisfiable H Attestation.levels pub priv).
Proof.
  intros Hk.
  assert (Hbits : Attestation.satisfiable H Attestation.levels pub priv ->
     nth k (Attestation.pathIndices priv) Zmod.zero = Zmod.zero
     \/ nth k (Attestation.pathIndices priv) Zmod.zero = Zmod.one).
  { intros Hsat. apply satisfiable_iff in Hsat. destruct Hsat as (Hs & Hr & _).
    unfold Attestation.shape in Hs. apply andb_true_iff in Hs.
    destruct Hs as [Hpe Hpi]. apply Nat.eqb_eq in Hpe, Hpi.
    apply (path_root_indices H _ _ _ _ k Hr);
      unfold Attestation.levels in *; lia. }
  split; [exact Hbits |].
  intros H0 H1 Hsat. destruct (Hbits Hsat); contradiction.
Qed.

Lemma C3_witness :
  (2 < 4)%nat
  /\ (nth 2 (Attestation.pathIndices Sample.privF) Zmod.zero = Zmod.zero
      \/ nth 2 (Attestation.pathIndices Sample.privF) Zmod.zero = Zmod.one)
  /\ ~ Attestation.satisfiable Sample.hashF Attestation.levels
        Sample.pubF Sample.privNonBit.
Proof.
  assert (Hk : (2 < 4)%nat) by lia.
  split; [exact Hk |]. split.
  - exact (proj1 (C3_path_indices_are_bits Sample.hashF Sample.pubF
                    Sample.privF 2 Hk) example_satisfiable).
  - apply (proj2 (C3_path_indices_are_bits Sample.hashF Sample.pubF
                    Sample.privNonBit 2 Hk)).
    + apply (F_of_Z_neq 2 0). vm_compute. reflexivity.
    + apply (F_of_Z_neq 2 1). vm_compute. reflexivity.
Defined.

(** ** Signal layout *)

(** C4: the main component is [Attestation] at depth 4 (capacity 16); its
    public signals are exactly [root] and [knownBadLeafHash], in that
    order; its private signals are [leaf], [pathElements[4]] and
    [pathIndices[4]]. *)
Theorem C4_signal_layout :
  Attestation.levels = 4%nat
  /\ Attestation.capacity = 16%nat
  /\ (forall H, Attestation.main H = Attestation.constraints H 4)
  /\ Attestation.public_signals
     = [ {| Attestation.sig_name := "root"; Attestation.sig_size := 1 |};
         {| Attestation.sig_name := "knownBadLeafHash";
            Attestation.sig_size := 1 |} ]
  /\ Attestation.private_signals
     = [ {| Attestation.sig_name := "leaf"; Attestation.sig_size := 1 |};
         {| Attestation.sig_name := "pathElements"; Attestation.sig_size := 4 |};
         {| Attestation.sig_name := "pathIndices"; Attestation.sig_size := 4 |} ]
  /\ (forall pub,
        Attestation.public_values pub
        = [Attestation.root pub; Attestation.knownBadLeafHash pub]).
Proof. repeat split. Qed.

(** ** Registry claims *)

Section RegistryClaims.
Import Registry.
Context {ProofComponents VerificationKey : Type}.
Variable well_formed : ProofComponents -> bool.
Variable verify : VerificationKey -> ProofComponents -> list F -> bool.


(** C6: in every reachable state each submitter has at most one stored
    attestation, and after two accepted submissions in sequence from one
    submitter exactly one attestation is stored for it: the second. *)
Theorem C6_one_attestation_per_submitter
    (st : @state ProofComponents VerificationKey) :
  reachable well_formed verify st ->
  (forall id, (length (attestations_of id st) <= 1)%nat)
  /\ (forall c n1 p1 s1 st1 n2 p2 s2 st2,
        submitAttestation well_formed verify c n1 p1 s1 st = Ok st1 ->
        submitAttestation well_formed verify c n2 p2 s2 st1 = Ok st2 ->
        exists r kb,
          s2 = [r; kb]
          /\ attestations_of c st2
             = [ {| root := r; proof := p2; publicSignals := s2;
                    submitter := c; timestamp := n2; valid := true |} ]).
Proof.
  intros Hreach. pose proof (slot_owner_reachable _ _ st Hreach) as Hown.
  split.
  - intros id. rewrite (attestations_of_reachable id st Hown).
    destruct (getLatestValidAttestation id st); cbn; lia.
  - intros c n1 p1 s1 st1 n2 p2 s2 st2 H1 H2.
    apply submit_Ok in H1. destruct H1 as (r1 & kb1 & _ & _ & _ & _ & ->).
    apply submit_Ok in H2. destruct H2 as (r2 & kb2 & -> & _ & _ & _ & ->).
    exists r2, kb2. split; [reflexivity |].
    rewrite attestations_of_reachable.
    + unfold getLatestValidAttestation. cbn [slots set_slots].
      rewrite lookup_insert_eq. reflexivity.
    + cbn [slots set_slots].
      apply slot_owner_attest; [reflexivity |].
      apply slot_owner_attest; [reflexivity | exact Hown].
Qed.
End RegistryClaims.

(** ** Builder claims *)



(** ** What the circuit does not establish *)

(** C9: the circuit proves a pointwise inequality only: for every tree,
    every index and every leaf [X] stored there that differs from
    [knownBadLeafHash], the constraint system of [Attestation(4)] is
    satisfiable with [leaf = X] and the root of the tree, although [X] is
    a member of the exclusion set. *)
Theorem C9_pointwise_inequality_only (H : F -> F -> F) (zero_leaf : F)
    (leaves : list F) (i : nat) (X kb : F) :
  (length leaves <= 16)%nat -> leaves !! i = Some X -> X <> kb ->
  In X leaves
  /\ exists p,
       MerkleTreeBuilder.pathFor zero_leaf
         (snd (MerkleTreeBuilder.build H zero_leaf leaves)) i = Ok p
       /\ Attestation.satisfiable H Attestation.levels
            {| Attestation.root := fst (MerkleTreeBuilder.build H zero_leaf leaves);
               Attestation.knownBadLeafHash := kb |}
            (private_of_path X p).
Proof.
  intros Hle Hi Hne.
  pose proof (lookup_lt_Some leaves i X Hi) as Hlt.
  split.
  { apply list_elem_of_In. apply (list_elem_of_lookup_2 _ _ _ Hi). }
  destruct (round_trip_ex H zero_leaf leaves i Hle Hlt)
    as (p & Hp & Hrt & Hpe & Hpi).
  exists p. split; [exact Hp |].
  rewrite (nth_lookup_Some leaves i zero_leaf X Hi) in Hrt.
  apply satisfiable_iff. unfold private_of_path.
  cbn [Attestation.leaf Attestation.pathElements Attestation.pathIndices
       Attestation.root Attestation.knownBadLeafHash].
  repeat split.
  - unfold Attestation.shape.
    cbn [Attestation.pathElements Attestation.pathIndices].
    rewrite length_map, Hpe, Hpi. reflexivity.
  - rewrite path_root_bits. f_equal. exact Hrt.
  - exact Hne.
Qed.

(** C10: [knownBadLeafHash] enters the constraint system through the
    inequality against [leaf] alone: the inclusion constraints do not
    depend on it, and for every value [B], member of the committed set or
    not, every valid leaf and path with [leaf] different from [B] satisfy
    the circuit with [knownBadLeafHash = B]. *)
Theorem C10_bad_leaf_unconstrained (H : F -> F -> F) (r B B' : F)
    (priv : Attestation.private_inputs) :
  (forall a,
     Attestation.inclusion H Attestation.levels
       (Attestation.with_knownBadLeafHash B a)
     = Attestation.inclusion H Attestation.levels a)
  /\ (Attestation.inclusion_satisfied H Attestation.levels
        {| Attestation.root := r; Attestation.knownBadLeafHash := B |} priv
      <-> Attestation.inclusion_satisfied H Attestation.levels
            {| Attestation.root := r; Attestation.knownBadLeafHash := B' |} priv)
  /\ (length (Attestation.pathElements priv) = 4%nat ->
      length (Attestation.pathIndices priv) = 4%nat ->
      Attestation.path_root H (Attestation.leaf priv)
        (Attestation.pathElements priv) (Attestation.pathIndices priv) = Some r ->
      Attestation.leaf priv <> B ->
      Attestation.satisfiable H Attestation.levels
        {| Attestation.root := r; Attestation.knownBadLeafHash := B |} priv).
Proof.
  split; [| split].
  - intros a. reflexivity.
  - rewrite !inclusion_satisfied_iff. reflexivity.
  - intros Hpe Hpi Hr Hne. apply satisfiable_iff.
    repeat split; [apply shape_lengths; assumption | exact Hr | exact Hne].
Qed.

(** ** The registry, builder and circuit claims on the samples *)


Lemma C6_witness :
  (length (Registry.attestations_of 2%Z Sample.registry1) <= 1)%nat
  /\ exists r kb,
       Sample.signalsB = [r; kb]
       /\ Registry.attestations_of 2 Sample.registry3
          = [ {| Registry.root := r; Registry.proof := 7;
                 Registry.publicSignals := Sample.signalsB;
                 Registry.submitter := 2; Registry.timestamp := 30;
                 Registry.valid := true |} ].
Proof.
  destruct (C6_one_attestation_per_submitter Sample.accept_encoding
              Sample.accept_proof Sample.registry1 registry1_reachable)
    as [Hone Htwo].
  split; [apply Hone |].
  apply (Htwo 2 20 7 Sample.signalsA Sample.registry2
              30 7 Sample.signalsB Sample.registry3);
    vm_compute; reflexivity.
Defined.


Lemma C9_witness :
  In (Zmod.of_Z bn128_r 33) Sample.leavesF
  /\ exists p,
       MerkleTreeBuilder.pathFor Zmod.zero (snd Sample.treeF) 2 = Ok p
       /\ Attestation.satisfiable Sample.hashF Attestation.levels
            Sample.pubF (private_of_path (Zmod.of_Z bn128_r 33) p).
Proof.
  apply (C9_pointwise_inequality_only Sample.hashF Zmod.zero Sample.leavesF 2
           (Zmod.of_Z bn128_r 33) (Zmod.of_Z bn128_r 22)).
  - cbn. lia.
  - reflexivity.
  - apply (F_of_Z_neq 33 22). vm_compute. reflexivity.
Defined.

Lemma C10_witness :
  Attestation.satisfiable Sample.hashF Attestation.levels
    {| Attestation.root := Attestation.root Sample.pubF;
       Attestation.knownBadLeafHash := Sample.outsider |}
    Sample.privF.
Proof.
  apply (proj2 (proj2 (C10_bad_leaf_unconstrained Sample.hashF
                         (Attestation.root Sample.pubF) Sample.outsider
                         Sample.outsider Sample.privF))).
  - vm_compute. reflexivity.
  - vm_compute. reflexivity.
  - vm_compute. reflexivity.
  - apply (F_of_Z_neq 33 999). vm_compute. reflexivity.
Defined.

(* ===================================================================== *)
(** * Part IV: the scripts, and the circuit at every depth *)
(* ===================================================================== *)

(** ** Every run of a script *)

Lemma all_runs_run {E : Type -> Type} {A : Type} (p : Script.prog E A) :
  forall (P : list (Script.occurrence E) -> Script.outcome A -> Prop),
  Script.all_runs P p ->
  forall (S : Type) (h : Script.handler E S) (s : S),
  P (Script.trace (Script.run h p s)) (Script.result_of (Script.run h p s)).
Proof.
  induction p as [a | c | R e k IH]; intros P HP S h s.
  - exact HP.
  - exact HP.
  - cbn [Script.run]. destruct (h R e s) as [r s'] eqn:Hh.
    specialize (IH r _ (HP r) S h s').
    destruct (Script.run h (k r) s') as [[tr o] s''].
    exact IH.
Qed.

(** ** The trusted-setup helper *)

Section SetupFacts.
Import Script SetupZk.
Context {Exn VerificationKey Template : Type}.
Variable stringify : VerificationKey -> result Exn string.
Variable dirname : path.

Local Abbreviation events := (@event Exn VerificationKey Template).
Local Abbreviation main := (@SetupZk.main Exn VerificationKey Template stringify dirname).
Local Abbreviation run_trace := (list (occurrence events)).

Ltac answer :=
  cbn;
  match goal with
  | |- forall _ : unit, _ => intros []
  | |- forall _ : bool, _ => intros []
  | |- forall _ : result _ _, _ => intros [?|?]
  | |- context [match stringify ?vk with _ => _ end] =>
      destruct (stringify vk) eqn:?
  end.

Ltac every_run :=
  repeat answer;
  repeat match goal with u : unit |- _ => destruct u end;
  cbn.

Lemma main_actions_prefix :
  all_runs (fun (tr : run_trace) o =>
              actions tr `prefix_of` pipeline dirname
              /\ (o = Returned tt -> actions tr = pipeline dirname)) main.
Proof.
  every_run.
  all: split; [eexists; reflexivity | try discriminate; try reflexivity].
Qed.


Lemma quiet_after_failure_split (tr : run_trace) :
  quiet_after_failure tr = true ->
  forall pre x post, tr = pre ++ x :: post -> failed x = true ->
  Forall (fun y => is_Some (console_error_of y)) post.
Proof.
  intros Hq pre. revert tr Hq. induction pre as [| y pre IH];
    intros tr Hq x post -> Hx; cbn in Hq; apply andb_true_iff in Hq;
    destruct Hq as [Hh Ht].
  - rewrite Hx in Hh. apply Forall_forall. intros y Hy.
    rewrite forallb_forall in Hh. specialize (Hh y Hy).
    apply bool_decide_eq_true in Hh. exact Hh.
  - apply (IH _ Ht x post eq_refl Hx).
Qed.

Lemma main_stops_at_failure :
  all_runs (fun (tr : run_trace) o =>
              quiet_after_failure tr = true
              /\ (existsb failed tr = true -> o = Exited 1)
              /\ (forall c, o = Exited c ->
                    c = 1
                    /\ (existsb failed tr = true
                        \/ exists vk e,
                             In (Occ (ExportVerificationKey (zkeyPathFinal dirname))
                                     (Ok vk)) tr
                             /\ stringify vk = Err e))) main.
Proof.
  every_run.
  all: split; [reflexivity |].
  all: split; [try reflexivity; try discriminate |].
  all: intros c Hc; try discriminate Hc; injection Hc as <-.
  all: split; [reflexivity |].
  all: try (left; reflexivity).
  right. eexists. eexists. split; [| eassumption].
  repeat first [left; reflexivity | right].
Qed.


Ltac find_in := repeat first [left; reflexivity | right].

Lemma main_checks_first :
  all_runs (fun (tr : run_trace) o =>
              map fst (checks tr) `prefix_of` required dirname
              /\ (actions tr <> [] ->
                  checks tr = map (fun p => (p, true)) (required dirname))
              /\ (forall p, In (p, false) (checks tr) ->
                    actions tr = [] /\ o = Exited 1)) main.
Proof.
  every_run.
  all: split; [eexists; reflexivity |].
  all: split; [try (intros _; reflexivity); try (intros Hn; now contradict Hn) |].
  all: intros p Hp; cbn in Hp.
  all: try (split; reflexivity).
  all: exfalso; intuition discriminate.
Qed.

Lemma reports_thrown_split (tr : run_trace) :
  reports_thrown tr ->
  forall pre x post e, tr = pre ++ x :: post -> thrown x = Some e ->
  exists m, post = [Occ (ConsoleError m) tt] /\ reported m = Some e.
Proof.
  intros Hr pre. revert tr Hr. induction pre as [| y pre IH];
    intros tr Hr x post e -> Hx; cbn in Hr.
  - rewrite Hx in Hr. exact Hr.
  - destruct (thrown y) as [e' |] eqn:Hy.
    + destruct Hr as (m & Hm & _). destruct pre as [| z pre].
      * injection Hm as -> _. discriminate Hx.
      * destruct pre; discriminate Hm.
    + apply (IH _ Hr x post e eq_refl Hx).
Qed.

Lemma main_reports :
  all_runs (fun (tr : run_trace) o =>
              reports_thrown tr
              /\ (forall c, o = Exited c -> console_errors tr <> [])
              /\ (o = Returned tt -> console_errors tr = [])) main.
Proof.
  every_run.
  all: split; [first [exact I | eexists; split; reflexivity] |].
  all: split; [intros c Hc; try discriminate Hc; discriminate
              | intros Ho; try discriminate Ho; reflexivity].
Qed.

Lemma main_data_flow :
  all_runs (fun (tr : run_trace) o =>
              forall file data, In (file, data) (writes tr) ->
              In (Occ (Contribute (zkeyPathPhase1 dirname) (zkeyPathFinal dirname)
                         "Demo Contribution 1"
                         "Some random entropy string for demo") (Ok tt)) tr
              /\ ((file = verificationKeyPath dirname
                   /\ exists vk,
                        In (Occ (ExportVerificationKey (zkeyPathFinal dirname))
                                (Ok vk)) tr
                        /\ stringify vk = Ok data)
                  \/ (file = verifierContractPath dirname
                      /\ exists groth16,
                           In (Occ GetVerifierGroth16 (Ok groth16)) tr
                           /\ In (Occ (ExportSolidityVerifier
                                         (zkeyPathFinal dirname) groth16)
                                      (Ok data)) tr))) main.
Proof.
  every_run.
  all: intros file data Hw; cbn in Hw.
  all: repeat match goal with
         | H : _ \/ _ |- _ => destruct H
         | H : False |- _ => destruct H
         | H : (_, _) = (_, _) |- _ => injection H as <- <-
         end.
  all: split; [find_in |].
  all: first
    [ left; split; [reflexivity |];
      eexists; split; [find_in | eassumption]
    | right; split; [reflexivity |];
      eexists; split; find_in ].
Qed.

Lemma relative_app (p q : path) : relative p (p ++ q) = q.
Proof.
  induction p as [| a p IH]; cbn.
  - destruct q; reflexivity.
  - rewrite String.eqb_refl. exact IH.
Qed.

Lemma join_join (p : path) (a b : string) : join (join p a) b = p ++ [a; b].
Proof. unfold join. rewrite <- app_assoc. reflexivity. Qed.

Lemma pipeline_outputs (a : action) (p : path) :
  In a (pipeline dirname) -> output_of a = Some p ->
  ~ In p (required dirname)
  /\ (p = verifierContractPath dirname
      \/ exists name, p = join (zkOutDir dirname) name).
Proof.
  intros Ha Ho. cbn in Ha.
  repeat match goal with
         | H : _ \/ _ |- _ => destruct H
         | H : False |- _ => destruct H
         end; subst a; cbn in Ho; try discriminate Ho; injection Ho as <-.
  all: split; [| first [left; reflexivity | right; eexists; reflexivity]].
  all: unfold required, ptauPath, circuitFilePath, r1csPath, wasmPath, symPath,
         zkeyPathPhase1, zkeyPathFinal, verificationKeyPath,
         verifierContractPath, zkOutDir, circuitsDir, contractsDir.
  all: rewrite ?join_join; unfold join; rewrite <- ?app_assoc; cbn.
  all: intros Hin.
  all: repeat match goal with
         | H : _ \/ _ |- _ => destruct H
         | H : False |- _ => destruct H
         | H : _ ++ _ = _ ++ _ |- _ => apply app_inv_head in H; discriminate H
         end.
Qed.


Lemma relative_baseDir (a b : string) :
  relative (baseDir dirname) (join (join (baseDir dirname) a) b) = [a; b].
Proof. rewrite join_join. apply relative_app. Qed.

Lemma main_summary :
  all_runs (fun (tr : run_trace) o =>
              o = Returned tt ->
              exists before,
                console_logs tr
                = before
                  ++ [ SetupComplete; Summary;
                       SummaryProvingKey ["zk-out"; "attestation_final.zkey"];
                       SummaryVerificationKey
                         ["zk-out"; "attestation_verification_key.json"];
                       SummaryVerifier ["contracts"; "Verifier.sol"] ]) main.
Proof.
  every_run.
  all: intros Ho; try discriminate Ho.
  unfold zkeyPathFinal, verificationKeyPath, verifierContractPath,
    zkOutDir, contractsDir.
  rewrite !relative_baseDir.
  eexists (_ :: _ :: _ :: _ :: _ :: _ :: _ :: _ :: _ :: _ :: _ :: [_]).
  reflexivity.
Qed.

(** X1: whatever the file system and snarkjs answer, the calls of
    [node scripts/setup_zk.js] that make keys or write files are an initial
    part of one fixed sequence: new key, contribution, export of the
    verification key, its write, the verifier template, the export of the
    verifier, its write; a run that returns has made all seven. *)
Theorem X1_setup_steps_in_order (S : Type) (h : handler events S) (s : S) :
  actions (trace (run h main s)) `prefix_of` pipeline dirname
  /\ (result_of (run h main s) = Returned tt ->
      actions (trace (run h main s)) = pipeline dirname).
Proof.
  exact (all_runs_run main _ main_actions_prefix S h s).
Qed.

(** X2: the script stops at the first answer that is a missing file or a
    thrown exception: after it nothing happens but lines on
    [console.error], and the process exits with code 1; and it exits, always
    with code 1, only after such an answer or when the verification key
    cannot be turned into JSON. *)
Theorem X2_setup_stops_at_first_failure (S : Type) (h : handler events S) (s : S) :
  (forall pre x post,
     trace (run h main s) = pre ++ x :: post -> failed x = true ->
     Forall (fun y => is_Some (console_error_of y)) post
     /\ result_of (run h main s) = Exited 1)
  /\ (forall c, result_of (run h main s) = Exited c ->
        c = 1
        /\ (existsb failed (trace (run h main s)) = true
            \/ exists vk e,
                 In (Occ (ExportVerificationKey (zkeyPathFinal dirname)) (Ok vk))
                    (trace (run h main s))
                 /\ stringify vk = Err e)).
Proof.
  destruct (all_runs_run main _ main_stops_at_failure S h s) as (Hq & Hf & Hc).
  split; [| exact Hc].
  intros pre x post Htr Hx. split.
  - exact (quiet_after_failure_split _ Hq pre x post Htr Hx).
  - apply Hf. rewrite Htr, existsb_app. cbn [existsb]. rewrite Hx.
    apply orb_true_r.
Qed.

(** X3: the script looks for its five input files first, in the order
    Powers of Tau file, circuit source, R1CS, WASM, SYM, and for nothing
    else; it calls snarkjs or writes a file only after all five were found,
    and when one is missing it does neither and exits with code 1. *)
Theorem X3_setup_checks_inputs_first (S : Type) (h : handler events S) (s : S) :
  map fst (checks (trace (run h main s))) `prefix_of` required dirname
  /\ (actions (trace (run h main s)) <> [] ->
      checks (trace (run h main s))
      = map (fun p => (p, true)) (required dirname))
  /\ (forall p, In (p, false) (checks (trace (run h main s))) ->
        actions (trace (run h main s)) = []
        /\ result_of (run h main s) = Exited 1).
Proof.
  exact (all_runs_run main _ main_checks_first S h s).
Qed.

(** X4: every file the script creates or replaces is the verifier contract
    [contracts/Verifier.sol] or lies directly in [zk-out], and is none of
    the five input files, wherever the script is installed. *)
Theorem X4_setup_leaves_inputs_alone (S : Type) (h : handler events S) (s : S)
    (a : action) (p : path) :
  In a (actions (trace (run h main s))) -> output_of a = Some p ->
  ~ In p (required dirname)
  /\ (p = verifierContractPath dirname
      \/ exists name, p = join (zkOutDir dirname) name).
Proof.
  intros Ha Ho.
  destruct (all_runs_run main _ main_actions_prefix S h s) as [[k Hk] _].
  apply (pipeline_outputs a p); [| exact Ho].
  rewrite Hk. apply in_or_app. left. exact Ha.
Qed.

(** X5: an exception thrown by snarkjs or by [fs.writeFileSync] is not
    lost: the call is followed by exactly one line on [console.error], which
    carries the exception, and by nothing else; a run that exits has
    written to [console.error], and a run that returns has not. *)
Theorem X5_setup_reports_exceptions (S : Type) (h : handler events S) (s : S) :
  (forall pre x post e,
     trace (run h main s) = pre ++ x :: post -> thrown x = Some e ->
     exists m, post = [Occ (ConsoleError m) tt] /\ reported m = Some e)
  /\ (forall c, result_of (run h main s) = Exited c ->
        console_errors (trace (run h main s)) <> [])
  /\ (result_of (run h main s) = Returned tt ->
      console_errors (trace (run h main s)) = []).
Proof.
  destruct (all_runs_run main _ main_reports S h s) as (Hr & He & Hn).
  split; [| split; [exact He | exact Hn]].
  intros pre x post e Htr Hx.
  exact (reports_thrown_split _ Hr pre x post e Htr Hx).
Qed.

(** X6: what the script hands to [fs.writeFileSync] comes from the final
    key of its own contribution: the verification key file receives the
    JSON text of the key exported from that final key, and
    [contracts/Verifier.sol] the code exported from the same final key with
    the template snarkjs returned; nothing else is written. *)
Theorem X6_setup_written_data (S : Type) (h : handler events S) (s : S)
    (file : path) (data : string) :
  In (file, data) (writes (trace (run h main s))) ->
  In (Occ (Contribute (zkeyPathPhase1 dirname) (zkeyPathFinal dirname)
             "Demo Contribution 1" "Some random entropy string for demo")
          (Ok tt))
     (trace (run h main s))
  /\ ((file = verificationKeyPath dirname
       /\ exists vk,
            In (Occ (ExportVerificationKey (zkeyPathFinal dirname)) (Ok vk))
               (trace (run h main s))
            /\ stringify vk = Ok data)
      \/ (file = verifierContractPath dirname
          /\ exists groth16,
               In (Occ GetVerifierGroth16 (Ok groth16)) (trace (run h main s))
               /\ In (Occ (ExportSolidityVerifier (zkeyPathFinal dirname) groth16)
                          (Ok data))
                     (trace (run h main s)))).
Proof.
  exact (all_runs_run main _ main_data_flow S h s file data).
Qed.

(** X11: a run that returns ends its [console.log] output with the
    summary, which names the final proving key, the verification key and
    the verifier contract by their paths from the project root,
    [zk-out/attestation_final.zkey],
    [zk-out/attestation_verification_key.json] and
    [contracts/Verifier.sol], wherever the project is installed. *)
Theorem X11_setup_summary_paths (S : Type) (h : handler events S) (s : S) :
  result_of (run h main s) = Returned tt ->
  exists before,
    console_logs (trace (run h main s))
    = before
      ++ [ SetupComplete; Summary;
           SummaryProvingKey ["zk-out"; "attestation_final.zkey"];
           SummaryVerificationKey ["zk-out"; "attestation_verification_key.json"];
           SummaryVerifier ["contracts"; "Verifier.sol"] ].
Proof.
  exact (all_runs_run main _ main_summary S h s).
Qed.
End SetupFacts.

(** ** The npm scripts *)

Section NpmFacts.
Import Script PackageJson.

Ltac answer :=
  cbn;
  match goal with
  | |- forall _ : bool, _ => intros []
  end.

Ltac every_run := repeat answer; cbn.

Ltac cases_in H :=
  cbn in H;
  repeat match type of H with
         | _ \/ _ => destruct H as [H | H]
         end;
  try (exfalso; exact H); try discriminate H.

Lemma compile_circuit_runs (depth : nat) :
  all_runs (fun tr o =>
              o = Returned (Some (succeeded tr))
              /\ (forall rest, tests tr = ("zk-out", true) :: rest ->
                    rest = [] /\ programs tr = [])
              /\ (forall args, In ("circom", args) (programs tr) ->
                    tests tr = [("zk-out", false); ("zk-out\attestation_js", false)]
                    /\ exists ok,
                         finished tr
                         = [ ("mkdir", ["zk-out"], true);
                             ("mkdir", ["zk-out\attestation_js"], true);
                             ("circom",
                              ["circuits/attestation/attestation.circom";
                               "--r1cs"; "--wasm"; "--sym"; "-o"; "zk-out"],
                              ok) ]
                         /\ o = Returned (Some ok))
              /\ (forall program args, In (program, args, false) (finished tr) ->
                    list.last (finished tr) = Some (program, args, false)))
    (npm_run (S depth) "compile:circuit").
Proof.
  every_run.
  all: split; [reflexivity |].
  all: split; [intros rest Hr; try discriminate Hr;
               injection Hr as <-; split; reflexivity |].
  all: split; [intros args Hin; cases_in Hin;
               (split; [reflexivity | eexists; split; reflexivity]) |].
  all: intros program args Hin; cases_in Hin; injection Hin as <- <-;
    reflexivity.
Qed.

Lemma setup_zk_runs (depth : nat) :
  all_runs (fun tr o =>
              o = Returned (Some (succeeded tr))
              /\ (forall args, In ("node", args) (programs tr) ->
                    args = ["scripts/setup_zk.js"]
                    /\ list.last (programs tr) = Some ("node", args)
                    /\ forall p, In p (failures tr) -> p = ("node", args))
              /\ (forall rest, tests tr = ("zk-out", true) :: rest ->
                    programs tr = [("node", ["scripts/setup_zk.js"])])
              /\ (forall p, In p (failures tr) ->
                    list.last (programs tr) = Some p))
    (npm_run (S (S depth)) "setup:zk").
Proof.
  every_run.
  all: split; [reflexivity |].
  all: split; [intros args Hin; cases_in Hin; injection Hin as <-;
               (split; [reflexivity | split; [reflexivity |]]);
               intros p Hp; cases_in Hp; symmetry; exact Hp |].
  all: split; [intros rest Hr; try discriminate Hr; reflexivity |].
  all: intros p Hp; cases_in Hp; subst p; reflexivity.
Qed.

(** X7: [npm run compile:circuit] starts [circom] only in a directory that
    has no [zk-out], and only after [mkdir zk-out] and
    [mkdir zk-out\attestation_js] were run, in that order, and both ended
    with exit code 0; the script then succeeds exactly when [circom] does.
    A program that fails is the last one started.  Where [zk-out] is there
    already the script starts nothing at all, and succeeds. *)
Theorem X7_compile_circuit_needs_fresh_directory (S : Type)
    (h : handler event S) (s : S) (depth : nat) :
  let r := run h (npm_run (Datatypes.S depth) "compile:circuit") s in
  result_of r = Returned (Some (succeeded (trace r)))
  /\ (forall rest, tests (trace r) = ("zk-out", true) :: rest ->
        rest = [] /\ programs (trace r) = [])
  /\ (forall args, In ("circom", args) (programs (trace r)) ->
        tests (trace r) = [("zk-out", false); ("zk-out\attestation_js", false)]
        /\ exists ok,
             finished (trace r)
             = [ ("mkdir", ["zk-out"], true);
                 ("mkdir", ["zk-out\attestation_js"], true);
                 ("circom",
                  ["circuits/attestation/attestation.circom";
                   "--r1cs"; "--wasm"; "--sym"; "-o"; "zk-out"],
                  ok) ]
             /\ result_of r = Returned (Some ok))
  /\ (forall program args,
        In (program, args, false) (finished (trace r)) ->
        list.last (finished (trace r)) = Some (program, args, false)).
Proof.
  exact (all_runs_run _ _ (compile_circuit_runs depth) S h s).
Qed.

(** X8: [npm run setup:zk] starts [node scripts/setup_zk.js] last and only
    when nothing before it failed; the script succeeds exactly when no
    program it started failed, and the first program to fail is the last
    one started.  Where [zk-out] is there already, the setup script is the
    only program started: the circuit is not compiled again. *)
Theorem X8_setup_zk_script (S : Type) (h : handler event S) (s : S)
    (depth : nat) :
  let r := run h (npm_run (Datatypes.S (Datatypes.S depth)) "setup:zk") s in
  result_of r = Returned (Some (succeeded (trace r)))
  /\ (forall args, In ("node", args) (programs (trace r)) ->
        args = ["scripts/setup_zk.js"]
        /\ list.last (programs (trace r)) = Some ("node", args)
        /\ forall p, In p (failures (trace r)) -> p = ("node", args))
  /\ (forall rest, tests (trace r) = ("zk-out", true) :: rest ->
        programs (trace r) = [("node", ["scripts/setup_zk.js"])])
  /\ (forall p, In p (failures (trace r)) ->
        list.last (programs (trace r)) = Some p).
Proof.
  exact (all_runs_run _ _ (setup_zk_runs depth) S h s).
Qed.
End NpmFacts.

(** ** The circuit at every depth *)

(** X9: at every depth [levels], the constraint system of
    [Attestation(levels)] is satisfiable exactly when both input arrays
    have [levels] entries, the path recomputes to [root] and [leaf] differs
    from [knownBadLeafHash]; the witness computation returns an assignment
    exactly then, and what it returns satisfies every constraint and
    carries the inputs it was given. *)
Theorem X9_attestation_at_every_depth (H : F -> F -> F) (levels : nat)
    (pub : Attestation.public_inputs) (priv : Attestation.private_inputs) :
  (Attestation.satisfiable H levels pub priv <->
     length (Attestation.pathElements priv) = levels
     /\ length (Attestation.pathIndices priv) = levels
     /\ Attestation.path_root H (Attestation.leaf priv)
          (Attestation.pathElements priv) (Attestation.pathIndices priv)
        = Some (Attestation.root pub)
     /\ Attestation.leaf priv <> Attestation.knownBadLeafHash pub)
  /\ (forall a, Attestation.witness H levels pub priv = Some a ->
        Attestation.constraints H levels a = true
        /\ Attestation.extends pub priv a)
  /\ (Attestation.witness H levels pub priv = None <->
      ~ Attestation.satisfiable H levels pub priv).
Proof.
  split; [| split].
  - rewrite satisfiable_iff. unfold Attestation.shape.
    rewrite andb_true_iff, !Nat.eqb_eq. tauto.
  - unfold Attestation.witness. intros a.
    destruct (Attestation.constraints H levels (Attestation.assign H pub priv))
      eqn:Hc; [| discriminate].
    intros [= <-]. split; [exact Hc | split; reflexivity].
  - symmetry. apply witness_None.
Qed.

(** X10: at every depth, the private inputs fix the root: if the
    constraints can be satisfied with the same leaf and path beside two
    public inputs, the two roots are equal. *)
Theorem X10_path_opens_one_root (H : F -> F -> F) (levels : nat)
    (pub pub' : Attestation.public_inputs) (priv : Attestation.private_inputs) :
  Attestation.satisfiable H levels pub priv ->
  Attestation.satisfiable H levels pub' priv ->
  Attestation.root pub = Attestation.root pub'.
Proof.
  intros Hs Hs'. apply satisfiable_iff in Hs, Hs'.
  destruct Hs as (_ & Hr & _). destruct Hs' as (_ & Hr' & _).
  congruence.
Qed.

(** ** The scripts and the circuit of depth 2 on concrete environments *)

Lemma X1_witness :
  Script.result_of (Script.run SetupSample.system SetupSample.main SetupSample.ready)
  = Script.Returned tt
  /\ SetupZk.actions
       (Script.trace (Script.run SetupSample.system SetupSample.main SetupSample.ready))
     = SetupZk.pipeline SetupSample.dirname.
Proof.
  assert (Hr : Script.result_of
                 (Script.run SetupSample.system SetupSample.main SetupSample.ready)
               = Script.Returned tt) by (vm_compute; reflexivity).
  split; [exact Hr |].
  exact (proj2 (X1_setup_steps_in_order SetupSample.stringify SetupSample.dirname
                  _ SetupSample.system SetupSample.ready) Hr).
Defined.

Lemma X2_witness :
  Forall (fun y => is_Some (SetupZk.console_error_of y))
    (skipn 6 (Script.trace
                (Script.run SetupSample.system SetupSample.main
                   SetupSample.not_compiled)))
  /\ Script.result_of
       (Script.run SetupSample.system SetupSample.main SetupSample.not_compiled)
     = Script.Exited 1.
Proof.
  apply (proj1 (X2_setup_stops_at_first_failure SetupSample.stringify
                  SetupSample.dirname _ SetupSample.system
                  SetupSample.not_compiled)
           (firstn 5 (Script.trace
                        (Script.run SetupSample.system SetupSample.main
                           SetupSample.not_compiled)))
           (Script.Occ (SetupZk.ExistsSync (SetupZk.r1csPath SetupSample.dirname))
                       false)).
  - vm_compute. reflexivity.
  - reflexivity.
Defined.

Lemma X3_witness :
  SetupZk.checks
    (Script.trace (Script.run SetupSample.system SetupSample.main SetupSample.ready))
  = map (fun p => (p, true)) (SetupZk.required SetupSample.dirname)
  /\ SetupZk.actions
       (Script.trace
          (Script.run SetupSample.system SetupSample.main SetupSample.not_compiled))
     = [].
Proof.
  split.
  - apply (proj1 (proj2 (X3_setup_checks_inputs_first SetupSample.stringify
                           SetupSample.dirname _ SetupSample.system
                           SetupSample.ready))).
    vm_compute. discriminate.
  - apply (proj2 (proj2 (X3_setup_checks_inputs_first SetupSample.stringify
                           SetupSample.dirname _ SetupSample.system
                           SetupSample.not_compiled))
             (SetupZk.r1csPath SetupSample.dirname)).
    vm_compute. tauto.
Defined.

Lemma X4_witness :
  ~ In (SetupZk.verifierContractPath SetupSample.dirname)
       (SetupZk.required SetupSample.dirname)
  /\ (SetupZk.verifierContractPath SetupSample.dirname
      = SetupZk.verifierContractPath SetupSample.dirname
      \/ exists name,
           SetupZk.verifierContractPath SetupSample.dirname
           = SetupZk.join (SetupZk.zkOutDir SetupSample.dirname) name).
Proof.
  apply (X4_setup_leaves_inputs_alone SetupSample.stringify SetupSample.dirname
           _ SetupSample.system SetupSample.ready
           (SetupZk.DoWriteFileSync
              (SetupZk.verifierContractPath SetupSample.dirname))).
  - vm_compute. tauto.
  - reflexivity.
Defined.

Lemma X5_witness :
  exists m,
    skipn 18 (Script.trace
                (Script.run SetupSample.system SetupSample.main
                   SetupSample.read_only))
    = [Script.Occ (SetupZk.ConsoleError m) tt]
    /\ SetupZk.reported m = Some "EACCES"%string.
Proof.
  apply (proj1 (X5_setup_reports_exceptions SetupSample.stringify
                  SetupSample.dirname _ SetupSample.system
                  SetupSample.read_only)
           (firstn 17 (Script.trace
                         (Script.run SetupSample.system SetupSample.main
                            SetupSample.read_only)))
           (Script.Occ
              (SetupZk.WriteFileSync
                 (SetupZk.verificationKeyPath SetupSample.dirname)
                 "{protocol: groth16}")
              (Err "EACCES"%string))).
  - vm_compute. reflexivity.
  - reflexivity.
Defined.

Lemma X6_witness :
  exists vk,
    In (Script.Occ
          (SetupZk.ExportVerificationKey
             (SetupZk.zkeyPathFinal SetupSample.dirname)) (Ok vk))
       (Script.trace
          (Script.run SetupSample.system SetupSample.main SetupSample.ready))
    /\ SetupSample.stringify vk = Ok "{protocol: groth16}"%string.
Proof.
  destruct (X6_setup_written_data SetupSample.stringify SetupSample.dirname
              _ SetupSample.system SetupSample.ready
              (SetupZk.verificationKeyPath SetupSample.dirname)
              "{protocol: groth16}") as [_ [[_ Hvk] | [Hfile _]]].
  - vm_compute. tauto.
  - exact Hvk.
  - vm_compute in Hfile. discriminate Hfile.
Defined.

Lemma X7_witness :
  PackageJson.programs
    (Script.trace
       (Script.run NpmSample.shell (PackageJson.npm_run 1 "compile:circuit")
          NpmSample.compiled_before))
  = []
  /\ (exists ok,
        PackageJson.finished
          (Script.trace
             (Script.run NpmSample.shell
                (PackageJson.npm_run 1 "compile:circuit") NpmSample.fresh))
        = [ ("mkdir", ["zk-out"], true);
            ("mkdir", ["zk-out\attestation_js"], true);
            ("circom",
             ["circuits/attestation/attestation.circom";
              "--r1cs"; "--wasm"; "--sym"; "-o"; "zk-out"], ok) ]
        /\ Script.result_of
             (Script.run NpmSample.shell
                (PackageJson.npm_run 1 "compile:circuit") NpmSample.fresh)
           = Script.Returned (Some ok))
  /\ list.last
       (PackageJson.finished
          (Script.trace
             (Script.run NpmSample.shell
                (PackageJson.npm_run 1 "compile:circuit")
                NpmSample.fresh_broken)))
     = Some ("circom",
             ["circuits/attestation/attestation.circom";
              "--r1cs"; "--wasm"; "--sym"; "-o"; "zk-out"], false).
Proof.
  split; [| split].
  - apply (proj1 (proj2 (X7_compile_circuit_needs_fresh_directory _
                           NpmSample.shell NpmSample.compiled_before 0)) []).
    vm_compute. reflexivity.
  - apply (proj1 (proj2 (proj2 (X7_compile_circuit_needs_fresh_directory _
                                  NpmSample.shell NpmSample.fresh 0)))
             ["circuits/attestation/attestation.circom";
              "--r1cs"; "--wasm"; "--sym"; "-o"; "zk-out"]).
    vm_compute. tauto.
  - apply (proj2 (proj2 (proj2 (X7_compile_circuit_needs_fresh_directory _
                                  NpmSample.shell NpmSample.fresh_broken 0)))).
    vm_compute. tauto.
Defined.

Lemma X8_witness :
  PackageJson.programs
    (Script.trace
       (Script.run NpmSample.shell (PackageJson.npm_run 2 "setup:zk")
          NpmSample.compiled_before))
  = [("node", ["scripts/setup_zk.js"])]
  /\ list.last
       (PackageJson.programs
          (Script.trace
             (Script.run NpmSample.shell (PackageJson.npm_run 2 "setup:zk")
                NpmSample.fresh_broken)))
     = Some ("circom",
             ["circuits/attestation/attestation.circom";
              "--r1cs"; "--wasm"; "--sym"; "-o"; "zk-out"]).
Proof.
  split.
  - apply (proj1 (proj2 (proj2 (X8_setup_zk_script _ NpmSample.shell
                                  NpmSample.compiled_before 0)))
             []).
    vm_compute. reflexivity.
  - apply (proj2 (proj2 (proj2 (X8_setup_zk_script _ NpmSample.shell
                                  NpmSample.fresh_broken 0)))).
    vm_compute. tauto.
Defined.

Lemma X9_witness :
  Attestation.satisfiable Sample.hashF 2 ShallowSample.pub ShallowSample.priv
  /\ Attestation.constraints Sample.hashF 2
       (Attestation.assign Sample.hashF ShallowSample.pub ShallowSample.priv)
     = true.
Proof.
  destruct (X9_attestation_at_every_depth Sample.hashF 2 ShallowSample.pub
              ShallowSample.priv) as (Hsat & Hwit & _).
  split.
  - apply Hsat.
    split; [reflexivity |]. split; [reflexivity |].
    split; [vm_compute; reflexivity |].
    apply (F_of_Z_neq 5 6). vm_compute. reflexivity.
  - apply Hwit. vm_compute. reflexivity.
Defined.

Lemma X10_witness :
  Attestation.root ShallowSample.pub = Attestation.root ShallowSample.pub'.
Proof.
  apply (X10_path_opens_one_root Sample.hashF 2 ShallowSample.pub
           ShallowSample.pub' ShallowSample.priv).
  - exists (Attestation.assign Sample.hashF ShallowSample.pub ShallowSample.priv).
    split; [split; reflexivity |]. vm_compute. reflexivity.
  - exists (Attestation.assign Sample.hashF ShallowSample.pub' ShallowSample.priv).
    split; [split; reflexivity |]. vm_compute. reflexivity.
Defined.

Lemma X11_witness :
  exists before,
    SetupZk.console_logs
      (Script.trace
         (Script.run SetupSample.system SetupSample.main SetupSample.ready))
    = before
      ++ [ SetupZk.SetupComplete; SetupZk.Summary;
           SetupZk.SummaryProvingKey ["zk-out"; "attestation_final.zkey"];
           SetupZk.SummaryVerificationKey
             ["zk-out"; "attestation_verification_key.json"];
           SetupZk.SummaryVerifier ["contracts"; "Verifier.sol"] ].
Proof.
  apply (X11_setup_summary_paths SetupSample.stringify SetupSample.dirname
           _ SetupSample.system SetupSample.ready).
  vm_compute. reflexivity.
Defined.
